(** * cloudflare-worker-email: the SMTP session of [src/email-worker.ts]

    A shallow embedding of [sendEmail] (the STARTTLS / AUTH LOGIN session and
    the message composer) together with the platform functions it calls, and
    the properties of the session; then of the [fetch] handler of the worker
    and of [sendWelcomeEmail] of [src/examples.ts], which call [sendEmail].

    Modelling conventions.
    - A JavaScript string is a Rocq [string] holding its UTF-8 bytes (text
      without lone surrogates).  With that reading [TextEncoder.encode] is the
      identity on the bytes, concatenation and [join] are those of [string],
      and [startsWith] is a byte prefix test.
    - A value of type [string | undefined] is an [option string].
    - Every awaited operation settles: it resolves or it rejects.  What the
      network answers is given by a [World]; what the program asks of the
      network is recorded, in order, as a list of [Event]s.
    - A thrown value is an object seen through its [message] property.
    - [getWriter()], [getReader()] and the constructors of [TextEncoder] and
      [TextDecoder] do not fail; [console.log] and [console.error] have no
      effect on the result or on the wire and are left out. *)

From Stdlib Require Import String Ascii List ZArith NArith Bool Lia.
From Stdlib Require Import DecimalString DecimalZ.
Import ListNotations.
Local Open Scope list_scope.
Local Open Scope string_scope.

Set Implicit Arguments.

(* ================================================================== *)
(** * Platform functions *)
(* ================================================================== *)

Module Js.

(** [x || d] for [x : string | undefined]: [undefined] and the empty string
    are falsy. *)
Definition truthy (x : option string) : bool :=
  match x with
  | Some EmptyString => false
  | Some _ => true
  | None => false
  end.

Definition or_else (x : option string) (d : string) : string :=
  match x with
  | Some EmptyString => d
  | Some s => s
  | None => d
  end.

(** [x || false] for [x : boolean | undefined]. *)
Definition or_false (x : option bool) : bool :=
  match x with
  | Some b => b
  | None => false
  end.

(** Rendering of a [string | undefined] inside a template literal. *)
Definition tpl (x : option string) : string :=
  match x with
  | Some s => s
  | None => "undefined"
  end.

(** [s.startsWith(searchString)]. *)
Fixpoint startsWith (s searchString : string) {struct searchString} : bool :=
  match searchString, s with
  | EmptyString, _ => true
  | String p searchString', String c s' =>
      Ascii.eqb c p && startsWith s' searchString'
  | String _ _, EmptyString => false
  end.

(** [lines.join(sep)]. *)
Definition join (sep : string) (lines : list string) : string :=
  String.concat sep lines.

(** ** White space ([trim], [parseInt])

    WhiteSpace and LineTerminator code points of ECMAScript, as UTF-8:
    one byte for U+0009..U+000D and U+0020, two bytes for U+00A0, three
    bytes for U+1680, U+2000..U+200A, U+2028, U+2029, U+202F, U+205F,
    U+3000 and U+FEFF. *)

Definition ws1 (c : ascii) : bool :=
  let n := N_of_ascii c in
  ((9 <=? n) && (n <=? 13) || (n =? 32))%N.

Definition ws2 (c d : ascii) : bool :=
  ((N_of_ascii c =? 194) && (N_of_ascii d =? 160))%N.

Definition ws3 (c d e : ascii) : bool :=
  let c := N_of_ascii c in
  let d := N_of_ascii d in
  let e := N_of_ascii e in
  ((c =? 225) && (d =? 154) && (e =? 128)
   || (c =? 226) && (d =? 128)
      && ((128 <=? e) && (e <=? 138) || (e =? 168) || (e =? 169) || (e =? 175))
   || (c =? 226) && (d =? 129) && (e =? 159)
   || (c =? 227) && (d =? 128) && (e =? 128)
   || (c =? 239) && (d =? 187) && (e =? 191))%N.

Fixpoint trimStart (s : string) : string :=
  match s with
  | EmptyString => s
  | String c s1 =>
      if ws1 c then trimStart s1
      else
        match s1 with
        | EmptyString => s
        | String d s2 =>
            if ws2 c d then trimStart s2
            else
              match s2 with
              | EmptyString => s
              | String e s3 => if ws3 c d e then trimStart s3 else s
              end
        end
  end.

(** Is [s] made of white space only? *)
Definition blank (s : string) : bool :=
  match trimStart s with
  | EmptyString => true
  | String _ _ => false
  end.

(** The longest prefix of [s] that is not followed by white space only. *)
Fixpoint trimEnd (s : string) : string :=
  match s with
  | EmptyString => EmptyString
  | String c s' => if blank s then EmptyString else String c (trimEnd s')
  end.

Definition trim (s : string) : string := trimEnd (trimStart s).

(** ** [btoa]

    [btoa] takes a string of code points up to U+00FF, one byte each, and
    throws InvalidCharacterError on any other code point.  In UTF-8 the code
    points up to U+007F are single bytes and U+0080..U+00FF are the two-byte
    sequences led by 0xC2 and 0xC3. *)

Fixpoint latin1 (s : string) : option (list N) :=
  match s with
  | EmptyString => Some []
  | String c s1 =>
      let n := N_of_ascii c in
      if (n <? 128)%N then option_map (cons n) (latin1 s1)
      else
        match s1 with
        | EmptyString => None
        | String d s2 =>
            let m := N_of_ascii d in
            if ((194 <=? n) && (n <=? 195) && (128 <=? m) && (m <=? 191))%N
            then option_map (cons ((n - 192) * 64 + (m - 128))%N) (latin1 s2)
            else None
        end
  end.

Definition alphabet : string :=
  "ABCDEFGHIJKLMNOPQRSTUVWXYZabcdefghijklmnopqrstuvwxyz0123456789+/".

Definition digit64 (n : N) : ascii :=
  match String.get (N.to_nat n) alphabet with
  | Some c => c
  | None => "="%char
  end.

Fixpoint base64 (bytes : list N) : string :=
  match bytes with
  | [] => EmptyString
  | [a] =>
      String (digit64 (a / 4))
        (String (digit64 (a mod 4 * 16)) "==")
  | [a; b] =>
      String (digit64 (a / 4))
        (String (digit64 (a mod 4 * 16 + b / 16))
           (String (digit64 (b mod 16 * 4)) "="))
  | a :: b :: c :: rest =>
      String (digit64 (a / 4))
        (String (digit64 (a mod 4 * 16 + b / 16))
           (String (digit64 (b mod 16 * 4 + c / 64))
              (String (digit64 (c mod 64)) (base64 rest))))
  end%N.

(** [None] stands for the InvalidCharacterError exception. *)
Definition btoa (s : string) : option string :=
  option_map base64 (latin1 s).

(** ** Numbers *)

(** The numbers the program handles are integers or NaN: [Date.now()] and
    the result of [parseInt]. *)
Inductive Number : Type :=
| NaN
| Num (z : Z).

(** Rendering of an integer inside a template literal (decimal digits, a
    leading minus sign for negatives; exact below 10^21, where JavaScript
    switches to exponent notation). *)
Definition decimal (z : Z) : string :=
  NilZero.string_of_int (Z.to_int z).

Definition digit (radix : N) (c : ascii) : option N :=
  let n := N_of_ascii c in
  let v :=
    if ((48 <=? n) && (n <=? 57))%N then Some (n - 48)%N
    else if ((97 <=? n) && (n <=? 122))%N then Some (n - 87)%N
    else if ((65 <=? n) && (n <=? 90))%N then Some (n - 55)%N
    else None in
  match v with
  | Some k => if (k <? radix)%N then Some k else None
  | None => None
  end.

(** Value of the longest prefix of [s] made of digits of [radix], given the
    value [acc] of the digits already read; [None] when no digit was read. *)
Fixpoint digits (radix : N) (s : string) (acc : option N) : option N :=
  match s with
  | EmptyString => acc
  | String c s' =>
      match digit radix c with
      | Some k =>
          digits radix s'
            (Some (match acc with Some a => a * radix + k | None => k end)%N)
      | None => acc
      end
  end.

(** [parseInt(s)] with no radix argument: leading white space is skipped, a
    sign is read, [0x] or [0X] selects radix 16, and the longest run of digits
    is the value; NaN when there is no digit.  (The value is exact below
    2^53; beyond that JavaScript rounds it to a double.) *)
Definition parseInt (s : string) : Number :=
  let s := trimStart s in
  let '(negative, s) :=
    match s with
    | String "-" s' => (true, s')
    | String "+" s' => (false, s')
    | _ => (false, s)
    end in
  let '(radix, s) :=
    match s with
    | String "0" (String "x" s') => (16%N, s')
    | String "0" (String "X" s') => (16%N, s')
    | _ => (10%N, s)
    end in
  match digits radix s None with
  | Some n => Num (if negative then - Z.of_N n else Z.of_N n)
  | None => NaN
  end.

End Js.
Import Js.

(* ================================================================== *)
(** * Data model *)
(* ================================================================== *)

(** [emailConfig.from]. *)
Record Sender : Type := mkSender {
  email : option string;
  name : option string
}.

Record EmailConfig : Type := mkEmailConfig {
  to : option string;
  subject : option string;
  body : option string;
  isHtml : option bool;
  from : option Sender
}.

Record SMTPConfig : Type := mkSMTPConfig {
  SMTP_HOST : option string;
  SMTP_PORT : option string;
  SMTP_USERNAME : option string;
  SMTP_PASSWORD : option string;
  TO_EMAIL : option string;
  AUTH_CODE : option string
}.

(** The object [sendEmail] resolves to. *)
Record Result : Type := mkResult {
  success : bool;
  message : option string;
  error : option string
}.

(** A thrown value, seen through its [message] property. *)
Inductive Exception : Type :=
| Error (msg : option string).

Definition message_of (e : Exception) : option string :=
  match e with Error msg => msg end.

(** [new Error(text)]. *)
Definition new_Error (text : string) : Exception := Error (Some text).

(* ================================================================== *)
(** * The network and the clock *)
(* ================================================================== *)

(** The three sockets of one call: the reachability probe, the session socket
    before the upgrade, and the socket [startTls()] returns. *)
Inductive Conn : Type := Probe | Plain | Secure.

Inductive Settled : Type :=
| Resolved
| Rejected (e : Exception).

(** [reader.read()]: a chunk (given by its decoded text), the end of the
    stream ([value] is undefined), or a rejection. *)
Inductive ReadResult : Type :=
| Chunk (text : string)
| EndOfStream
| ReadFailed (e : Exception).

(** What the environment answers during one call.  The reads, and the
    writes, of the session are numbered from 0 across both transports: the
    session is in lock step on one connection, so the n-th read is answered
    by the n-th thing the relay says. *)
Record World : Type := mkWorld {
  opened : Conn -> Settled;     (* connect() / startTls() and [.opened] *)
  closed : Conn -> Settled;     (* socket.close() *)
  replies : nat -> ReadResult;  (* the n-th read() of the session *)
  written : nat -> Settled;     (* the n-th write() of the session *)
  writer_released : Settled;    (* writer.releaseLock() *)
  reader_released : Settled;    (* reader.releaseLock() *)
  writer_closed : Settled;      (* secureWriter.close() *)
  reader_cancelled : Settled;   (* secureReader.cancel() *)
  utc_string : string;          (* new Date().toUTCString() *)
  now : Z;                      (* Date.now() *)
  invalid_character : Exception (* what btoa throws *)
}.

(** What the program does to the network, in order. *)
Inductive Event : Type :=
| Connect (hostname : string) (port : Number) (starttls : bool)
| Close (c : Conn)
| Read (c : Conn)
| Write (c : Conn) (bytes : string)
| ReleaseWriter
| ReleaseReader
| StartTls
| CloseWriter
| CancelReader.

Record Session : Type := mkSession {
  reads : nat;
  writes : nat;
  trace : list Event
}.

Definition start : Session := mkSession 0 0 [].

(* ================================================================== *)
(** * Asynchronous computations *)
(* ================================================================== *)

Inductive Completion (A : Type) : Type :=
| Normal (a : A)
| Throw (e : Exception).
Arguments Normal {A} a.
Arguments Throw {A} e.

Definition Async (A : Type) : Type := World -> Session -> Completion A * Session.

Definition ret {A} (a : A) : Async A := fun _ st => (Normal a, st).

Definition throw {A} (e : Exception) : Async A := fun _ st => (Throw e, st).

Definition bind {A B} (m : Async A) (k : A -> Async B) : Async B :=
  fun w st =>
    match m w st with
    | (Normal a, st') => k a w st'
    | (Throw e, st') => (Throw e, st')
    end.

Definition try_catch {A} (m : Async A) (handler : Exception -> Async A) : Async A :=
  fun w st =>
    match m w st with
    | (Normal a, st') => (Normal a, st')
    | (Throw e, st') => handler e w st'
    end.

Declare Scope async_scope.
Delimit Scope async_scope with async.
Notation "x <- m ;; k" := (bind m (fun x => k))
  (at level 61, m at next level, right associativity) : async_scope.
Notation "m ;; k" := (bind m (fun _ => k))
  (at level 61, right associativity) : async_scope.
Local Open Scope async_scope.

Definition when (b : bool) (m : Async unit) : Async unit :=
  if b then m else ret tt.

Definition emit (ev : Event) : Async unit :=
  fun _ st => (Normal tt, mkSession (reads st) (writes st) (trace st ++ [ev])%list).

Definition await (answer : World -> Settled) : Async unit :=
  fun w st =>
    match answer w with
    | Resolved => (Normal tt, st)
    | Rejected e => (Throw e, st)
    end.

Definition ask {A} (f : World -> A) : Async A := fun w st => (Normal (f w), st).

(** [connect({hostname, port}, options)] followed by [await socket.opened]. *)
Definition connect (c : Conn) (hostname : string) (port : Number) (starttls : bool)
  : Async unit :=
  emit (Connect hostname port starttls) ;; await (fun w => opened w c).

Definition close (c : Conn) : Async unit :=
  emit (Close c) ;; await (fun w => closed w c).

(** [socket.startTls()] followed by [await secureSocket.opened]. *)
Definition startTls : Async unit :=
  emit StartTls ;; await (fun w => opened w Secure).

(** [await reader.read()], returning [value]. *)
Definition read (c : Conn) : Async (option string) :=
  fun w st =>
    let st' := mkSession (S (reads st)) (writes st) (trace st ++ [Read c])%list in
    match replies w (reads st) with
    | Chunk text => (Normal (Some text), st')
    | EndOfStream => (Normal None, st')
    | ReadFailed e => (Throw e, st')
    end.

(** [await writer.write(encoder.encode(text))]. *)
Definition write (c : Conn) (text : string) : Async unit :=
  fun w st =>
    let st' := mkSession (reads st) (S (writes st)) (trace st ++ [Write c text])%list in
    match written w (writes st) with
    | Resolved => (Normal tt, st')
    | Rejected e => (Throw e, st')
    end.

Definition js_btoa (s : string) : Async string :=
  fun w st =>
    match btoa s with
    | Some b => (Normal b, st)
    | None => (Throw (invalid_character w), st)
    end.

(* ================================================================== *)
(** * [sendEmail] *)
(* ================================================================== *)

(** SMTP response codes. *)
Definition SMTP_READY : string := "220".
Definition SMTP_OK : string := "250".
Definition SMTP_AUTH_SUCCESS : string := "235".
Definition SMTP_START_INPUT : string := "354".
Definition SMTP_AUTH_CONTINUE : string := "334".

Definition CRLF : string := String "013" (String "010" EmptyString).

(** Helper function to read SMTP response. *)
Definition readResponse : Async string :=
  value <- read Plain ;;
  match value with
  | None => throw (new_Error "No response from server")
  | Some response => ret (trim response)
  end.

(** Helper function to send SMTP command. *)
Definition sendCommand (command : string) : Async unit :=
  write Plain (command ++ CRLF).

(** Helper functions for secure socket. *)
Definition readSecureResponse : Async string :=
  value <- read Secure ;;
  match value with
  | None => throw (new_Error "No secure response from server")
  | Some response => ret (trim response)
  end.

Definition sendSecureCommand (command : string) : Async unit :=
  write Secure (command ++ CRLF).

(** An element of an array under [join]: [undefined] is rendered empty. *)
Definition item (x : option string) : string :=
  match x with
  | Some s => s
  | None => EmptyString
  end.

(** Build email headers, with the content type pushed according to the
    email format. *)
Definition emailHeaders (FROM_NAME FROM_EMAIL : string) (TO_EMAIL SUBJECT : option string)
    (utc : string) (ms : Z) (SMTP_HOST : string) (IS_HTML : bool) : list string :=
  List.app
  [ "From: " ++ FROM_NAME ++ " <" ++ FROM_EMAIL ++ ">";
    "To: " ++ tpl TO_EMAIL;
    "Subject: " ++ tpl SUBJECT;
    "Date: " ++ utc;
    "Message-ID: <" ++ decimal ms ++ "@" ++ SMTP_HOST ++ ">";
    "MIME-Version: 1.0" ]
  (if IS_HTML
   then [ "Content-Type: text/html; charset=UTF-8";
          "Content-Transfer-Encoding: 8bit" ]
   else [ "Content-Type: text/plain; charset=UTF-8";
          "Content-Transfer-Encoding: 8bit" ]).

(** Email headers and body. *)
Definition emailMessage (headers : list string) (EMAIL_BODY : option string) : string :=
  join CRLF (headers ++ [ EmptyString; item EMAIL_BODY; "." ])%list.

Definition optional {A B} (x : option A) (f : A -> option B) : option B :=
  match x with
  | Some a => f a
  | None => None
  end.

(** The body of the [try] block of [sendEmail]. *)
Definition session (emailConfig : EmailConfig) (env : SMTPConfig) : Async Result :=
  (* Get SMTP configuration from environment *)
  let SMTP_HOST := or_else (SMTP_HOST env) "smtp.office365.com" in
  let SMTP_PORT := parseInt (or_else (SMTP_PORT env) "587") in
  let SMTP_USERNAME := or_else (SMTP_USERNAME env) "" in
  let FROM_EMAIL := or_else (optional (from emailConfig) email) SMTP_USERNAME in
  let FROM_NAME := or_else (optional (from emailConfig) name) "Notification" in
  let TO_EMAIL := to emailConfig in
  let SUBJECT := subject emailConfig in
  let EMAIL_BODY := body emailConfig in
  let IS_HTML := or_false (isHtml emailConfig) in
  let SMTP_PASSWORD := SMTP_PASSWORD env in

  when (negb (truthy SMTP_PASSWORD))
    (throw (new_Error "SMTP_PASSWORD environment variable is not set")) ;;
  when (negb (truthy (Some SMTP_USERNAME)))
    (throw (new_Error "SMTP_USERNAME environment variable is not set")) ;;
  when (negb (truthy TO_EMAIL) || negb (truthy SUBJECT) || negb (truthy EMAIL_BODY))
    (throw (new_Error
       "Missing required email parameters: to, subject, and body are required")) ;;

  (* Step 0: Check SMTP server reachability *)
  try_catch
    (connect Probe SMTP_HOST SMTP_PORT false ;;
     close Probe)
    (fun error =>
       throw (new_Error ("SMTP server unreachable: " ++ tpl (message_of error)))) ;;

  (* Create TCP connection to SMTP server *)
  connect Plain SMTP_HOST SMTP_PORT true ;;

  (* Step 1: Read initial server greeting *)
  response <- readResponse ;;
  when (negb (startsWith response SMTP_READY))
    (throw (new_Error ("SMTP server not ready: " ++ response))) ;;

  (* Step 2: Send EHLO command *)
  sendCommand ("EHLO " ++ SMTP_HOST) ;;
  response <- readResponse ;;
  when (negb (startsWith response SMTP_OK))
    (throw (new_Error ("EHLO failed: " ++ response))) ;;

  (* Step 3: Upgrade to TLS *)
  sendCommand "STARTTLS" ;;
  response <- readResponse ;;
  when (negb (startsWith response SMTP_READY))
    (throw (new_Error ("STARTTLS failed: " ++ response))) ;;

  (* Release the original reader and writer before upgrading *)
  try_catch (emit ReleaseWriter ;; await writer_released) (fun e => ret tt) ;;
  try_catch (emit ReleaseReader ;; await reader_released) (fun e => ret tt) ;;

  (* Upgrade the socket to use TLS *)
  startTls ;;

  (* Step 4: Send EHLO again after TLS upgrade *)
  sendSecureCommand ("EHLO " ++ SMTP_HOST) ;;
  response <- readSecureResponse ;;
  when (negb (startsWith response SMTP_OK))
    (throw (new_Error ("Secure EHLO failed: " ++ response))) ;;

  (* Step 5: Authenticate *)
  sendSecureCommand "AUTH LOGIN" ;;
  response <- readSecureResponse ;;
  when (negb (startsWith response SMTP_AUTH_CONTINUE))
    (throw (new_Error ("AUTH LOGIN failed: " ++ response))) ;;

  (* Send base64 encoded username *)
  base64Username <- js_btoa SMTP_USERNAME ;;
  sendSecureCommand base64Username ;;
  response <- readSecureResponse ;;
  when (negb (startsWith response SMTP_AUTH_CONTINUE))
    (throw (new_Error ("Username authentication failed: " ++ response))) ;;

  (* Send base64 encoded password *)
  base64Password <- js_btoa (tpl SMTP_PASSWORD) ;;
  sendSecureCommand base64Password ;;
  response <- readSecureResponse ;;
  when (negb (startsWith response SMTP_AUTH_SUCCESS))
    (throw (new_Error ("Password authentication failed: " ++ response))) ;;

  (* Step 6: Send email *)
  (* MAIL FROM *)
  sendSecureCommand ("MAIL FROM:<" ++ FROM_EMAIL ++ ">") ;;
  response <- readSecureResponse ;;
  when (negb (startsWith response SMTP_OK))
    (throw (new_Error ("MAIL FROM failed: " ++ response))) ;;

  (* RCPT TO *)
  sendSecureCommand ("RCPT TO:<" ++ tpl TO_EMAIL ++ ">") ;;
  response <- readSecureResponse ;;
  when (negb (startsWith response SMTP_OK))
    (throw (new_Error ("RCPT TO failed: " ++ response))) ;;

  (* DATA *)
  sendSecureCommand "DATA" ;;
  response <- readSecureResponse ;;
  when (negb (startsWith response SMTP_START_INPUT))
    (throw (new_Error ("DATA command failed: " ++ response))) ;;

  (* Build email headers *)
  utc <- ask utc_string ;;
  ms <- ask now ;;
  let emailHeaders :=
    emailHeaders FROM_NAME FROM_EMAIL TO_EMAIL SUBJECT utc ms SMTP_HOST IS_HTML in

  (* Send email headers and body *)
  let emailMessage := emailMessage emailHeaders EMAIL_BODY in
  sendSecureCommand emailMessage ;;
  response <- readSecureResponse ;;
  when (negb (startsWith response SMTP_OK))
    (throw (new_Error ("Email sending failed: " ++ response))) ;;

  (* Step 7: Quit *)
  sendSecureCommand "QUIT" ;;
  response <- readSecureResponse ;;

  (* Close the connection properly *)
  try_catch (emit CloseWriter ;; await writer_closed) (fun e => ret tt) ;;
  try_catch (emit CancelReader ;; await reader_cancelled) (fun e => ret tt) ;;
  try_catch (close Secure) (fun e => ret tt) ;;

  ret (mkResult true (Some ("Email sent successfully to " ++ tpl TO_EMAIL)) None).

(** Main email sending function: the [try] block and its [catch]. *)
Definition sendEmail (emailConfig : EmailConfig) (env : SMTPConfig) : Async Result :=
  try_catch
    (session emailConfig env)
    (fun error =>
       ret (mkResult false None
              (Some (or_else (message_of error) "Unknown error occurred")))).

(** One call: what the promise settles to and what was done to the network. *)
Definition call (emailConfig : EmailConfig) (env : SMTPConfig) (w : World)
  : Completion Result * list Event :=
  let (c, st) := sendEmail emailConfig env w start in (c, trace st).

(* ================================================================== *)
(** * The fixed order of a session *)
(* ================================================================== *)

(** The base64 form of a credential that [btoa] accepts. *)
Definition b64 (s : string) : string :=
  match btoa s with
  | Some b => b
  | None => EmptyString
  end.

Definition host (env : SMTPConfig) : string :=
  or_else (SMTP_HOST env) "smtp.office365.com".

Definition port (env : SMTPConfig) : Number :=
  parseInt (or_else (SMTP_PORT env) "587").

Definition username (env : SMTPConfig) : string :=
  or_else (SMTP_USERNAME env) "".

Definition sender_address (emailConfig : EmailConfig) (env : SMTPConfig) : string :=
  or_else (optional (from emailConfig) email) (username env).

Definition sender_name (emailConfig : EmailConfig) : string :=
  or_else (optional (from emailConfig) name) "Notification".

(** The payload [sendEmail] composes from its arguments and the clock. *)
Definition payload (emailConfig : EmailConfig) (env : SMTPConfig) (w : World) : string :=
  emailMessage
    (emailHeaders (sender_name emailConfig) (sender_address emailConfig env)
       (to emailConfig) (subject emailConfig) (utc_string w) (now w) (host env)
       (or_false (isHtml emailConfig)))
    (body emailConfig).

(** Every network operation of a session that runs to its end, in order. *)
Definition full_run (emailConfig : EmailConfig) (env : SMTPConfig) (w : World)
  : list Event :=
  [ Connect (host env) (port env) false;
    Close Probe;
    Connect (host env) (port env) true;
    Read Plain;
    Write Plain (("EHLO " ++ host env) ++ CRLF);
    Read Plain;
    Write Plain ("STARTTLS" ++ CRLF);
    Read Plain;
    ReleaseWriter;
    ReleaseReader;
    StartTls;
    Write Secure (("EHLO " ++ host env) ++ CRLF);
    Read Secure;
    Write Secure ("AUTH LOGIN" ++ CRLF);
    Read Secure;
    Write Secure (b64 (username env) ++ CRLF);
    Read Secure;
    Write Secure (b64 (tpl (SMTP_PASSWORD env)) ++ CRLF);
    Read Secure;
    Write Secure (("MAIL FROM:<" ++ sender_address emailConfig env ++ ">") ++ CRLF);
    Read Secure;
    Write Secure (("RCPT TO:<" ++ tpl (to emailConfig) ++ ">") ++ CRLF);
    Read Secure;
    Write Secure ("DATA" ++ CRLF);
    Read Secure;
    Write Secure (payload emailConfig env w ++ CRLF);
    Read Secure;
    Write Secure ("QUIT" ++ CRLF);
    Read Secure;
    CloseWriter;
    CancelReader;
    Close Secure ].

(** Places in [full_run]: the writes of the user name, of the password, of
    MAIL FROM and of the payload. *)
Definition at_username : nat := 15.
Definition at_password : nat := 17.
Definition at_mail_from : nat := 19.
Definition at_payload : nat := 25.

(** The gates of the session, in the order of their reads: the expected
    reply code and the label of the failure. *)
Definition gates : list (string * string) :=
  [ ("220", "SMTP server not ready");
    ("250", "EHLO failed");
    ("220", "STARTTLS failed");
    ("250", "Secure EHLO failed");
    ("334", "AUTH LOGIN failed");
    ("334", "Username authentication failed");
    ("235", "Password authentication failed");
    ("250", "MAIL FROM failed");
    ("250", "RCPT TO failed");
    ("354", "DATA command failed");
    ("250", "Email sending failed") ].

Definition failure (text : string) : Result := mkResult false None (Some text).

(** Does the reply pass a gate? *)
Definition passes (code : string) (r : ReadResult) : bool :=
  match r with
  | Chunk text => startsWith (trim text) code
  | EndOfStream => false
  | ReadFailed _ => false
  end.

Definition is_read (ev : Event) : bool :=
  match ev with
  | Read _ => true
  | _ => false
  end.

Definition count_reads (tr : list Event) : nat := length (filter is_read tr).

(** [gated w c gs k tr]: along [tr], whose first read is the [k]-th of the
    session and faces the first gate of [gs], every read but the last has a
    reply that passes its gate; a read whose reply does not pass is the last
    event, and a reply text that does not pass gives the result [c] the label
    of the gate.  Reads beyond the gates are not checked. *)
Inductive gated (w : World) (c : Completion Result)
  : list (string * string) -> nat -> list Event -> Prop :=
| gated_end gs k :
    gated w c gs k []
| gated_other gs k ev tr :
    is_read ev = false ->
    gated w c gs k tr ->
    gated w c gs k (ev :: tr)
| gated_unchecked k conn tr :
    gated w c [] (S k) tr ->
    gated w c [] k (Read conn :: tr)
| gated_pass code label gs k conn text tr :
    replies w k = Chunk text ->
    startsWith (trim text) code = true ->
    gated w c gs (S k) tr ->
    gated w c ((code, label) :: gs) k (Read conn :: tr)
| gated_mismatch code label gs k conn text :
    replies w k = Chunk text ->
    startsWith (trim text) code = false ->
    c = Normal (failure (label ++ ": " ++ trim text)) ->
    gated w c ((code, label) :: gs) k [Read conn]
| gated_no_reply code label gs k conn :
    replies w k = EndOfStream ->
    gated w c ((code, label) :: gs) k [Read conn]
| gated_read_failed code label gs k conn e :
    replies w k = ReadFailed e ->
    gated w c ((code, label) :: gs) k [Read conn].

Definition sent (recipient : string) : Result :=
  mkResult true (Some ("Email sent successfully to " ++ recipient)) None.

(* ================================================================== *)
(** * Vocabulary of the properties *)
(* ================================================================== *)

(** ** The plaintext transport and the upgrade *)

Definition on_plain (ev : Event) : bool :=
  match ev with
  | Read Plain => true
  | Write Plain _ => true
  | _ => false
  end.

Definition begins_upgrade (ev : Event) : bool :=
  match ev with
  | ReleaseWriter => true
  | _ => false
  end.

(** No event on the plaintext transport once the upgrade has begun. *)
Fixpoint upgrade_respected (upgrading : bool) (tr : list Event) : bool :=
  match tr with
  | [] => true
  | ev :: tr' =>
      negb (upgrading && on_plain ev)
      && upgrade_respected (upgrading || begins_upgrade ev) tr'
  end.

(** ** A session that runs to its end *)

(** The arguments pass the checks made before any network activity. *)
Definition configured (emailConfig : EmailConfig) (env : SMTPConfig) : bool :=
  truthy (SMTP_PASSWORD env) && truthy (SMTP_USERNAME env)
  && truthy (to emailConfig) && truthy (subject emailConfig)
  && truthy (body emailConfig).

Definition accepted_by_btoa (s : string) : bool :=
  match btoa s with
  | Some _ => true
  | None => false
  end.

(** [btoa] accepts the user name and the password: they hold no code point
    above U+00FF. *)
Definition encodable (env : SMTPConfig) : bool :=
  accepted_by_btoa (username env) && accepted_by_btoa (tpl (SMTP_PASSWORD env)).

Definition resolved (s : Settled) : bool :=
  match s with
  | Resolved => true
  | Rejected _ => false
  end.

(** The network side works: the probe opens and closes, the session socket
    opens, the upgrade is established and each of the eleven writes is
    accepted. *)
Definition accepting (w : World) : bool :=
  resolved (opened w Probe) && resolved (closed w Probe)
  && resolved (opened w Plain) && resolved (opened w Secure)
  && forallb (fun n => resolved (written w n)) (seq 0 11).

(** The reply to each gated step passes its gate. *)
Definition gates_pass (w : World) : bool :=
  forallb (fun g => passes (fst (snd g)) (replies w (fst g)))
    (combine (seq 0 11) gates).

Definition is_chunk (r : ReadResult) : bool :=
  match r with
  | Chunk _ => true
  | _ => false
  end.

(** The text of the reply begins with the code, before any trimming. *)
Definition leads (code : string) (r : ReadResult) : bool :=
  match r with
  | Chunk text => startsWith text code
  | _ => false
  end.

Definition replies_lead (w : World) : bool :=
  forallb (fun g => leads (fst (snd g)) (replies w (fst g)))
    (combine (seq 0 11) gates).

(** A byte that begins no white space sequence. *)
Definition solid (c : ascii) : bool :=
  let n := N_of_ascii c in
  (negb (ws1 c) && negb (n =? 194) && negb (n =? 225) && negb (n =? 226)
   && negb (n =? 227) && negb (n =? 239))%N.

(** The same world with other outcomes for the three closing operations. *)
Definition with_teardown (w : World) (a b c : Settled) : World :=
  mkWorld (opened w)
    (fun conn => match conn with Secure => c | _ => closed w conn end)
    (replies w) (written w) (writer_released w) (reader_released w)
    a b (utc_string w) (now w) (invalid_character w).

(** ** What is written *)

(** The header lines of the payload of a call. *)
Definition headers (emailConfig : EmailConfig) (env : SMTPConfig) (w : World)
  : list string :=
  emailHeaders (sender_name emailConfig) (sender_address emailConfig env)
    (to emailConfig) (subject emailConfig) (utc_string w) (now w) (host env)
    (or_false (isHtml emailConfig)).

Definition text_html : string := "Content-Type: text/html; charset=UTF-8".
Definition text_plain : string := "Content-Type: text/plain; charset=UTF-8".
Definition eight_bit : string := "Content-Transfer-Encoding: 8bit".

(** The value of an optional setting: what was supplied when it is not
    empty, the default otherwise. *)
Definition supplied_or (x : option string) (default : string) : string :=
  match x with
  | Some (String c s) => String c s
  | _ => default
  end.

(** The Message-ID header line of the payload of a call. *)
Definition message_id (env : SMTPConfig) (w : World) : string :=
  "Message-ID: <" ++ decimal (now w) ++ "@" ++ host env ++ ">".

(** ** The lines of a payload *)

Definition push (c : ascii) (lines : list string) : list string :=
  match lines with
  | line :: lines' => String c line :: lines'
  | [] => [ String c EmptyString ]
  end.

(** The lines of a text, which CRLF separates: [text.split('\r\n')]. *)
Fixpoint lines_of (text : string) : list string :=
  match text with
  | EmptyString => [ EmptyString ]
  | String c rest =>
      match rest with
      | String d rest' =>
          if Ascii.eqb c "013" && Ascii.eqb d "010"
          then EmptyString :: lines_of rest'
          else push c (lines_of rest)
      | EmptyString => push c (lines_of rest)
      end
  end.

(** The lines that come before the first empty one. *)
Fixpoint before_blank (lines : list string) : list string :=
  match lines with
  | [] => []
  | EmptyString :: _ => []
  | line :: lines' => line :: before_blank lines'
  end.

(** The header block of a payload: its lines up to the empty line that
    ends the headers. *)
Definition header_block (text : string) : list string :=
  before_blank (lines_of text).

(** The text holds no carriage return. *)
Fixpoint no_return (s : string) : bool :=
  match s with
  | EmptyString => true
  | String c s' => negb (Ascii.eqb c "013") && no_return s'
  end.

(** What the caller and the environment put into the header lines holds no
    carriage return. *)
Definition one_line_fields (emailConfig : EmailConfig) (env : SMTPConfig)
    (w : World) : bool :=
  no_return (sender_name emailConfig)
  && no_return (sender_address emailConfig env)
  && no_return (tpl (to emailConfig))
  && no_return (tpl (subject emailConfig))
  && no_return (utc_string w)
  && no_return (host env).

(* ================================================================== *)
(** * Concrete calls *)
(* ================================================================== *)

Definition hello : EmailConfig :=
  mkEmailConfig (Some "a@b.com") (Some "S") (Some "B") None None.

(** A body whose second line begins with a dot. *)
Definition dotted : EmailConfig :=
  mkEmailConfig (Some "a@b.com") (Some "S")
    (Some ("first line" ++ CRLF ++ ".second line")) (Some false) None.

Definition office : SMTPConfig :=
  mkSMTPConfig (Some "smtp.example.org") (Some "587") (Some "me@example.org")
    (Some "secret") None None.

(** An environment that supplies the credentials only. *)
Definition bare : SMTPConfig :=
  mkSMTPConfig None None (Some "me@example.org") (Some "secret") None None.

(** A password holding U+20AC, the euro sign. *)
Definition euro : SMTPConfig :=
  mkSMTPConfig (Some "smtp.example.org") (Some "587") (Some "me@example.org")
    (Some (String "226" (String "130" (String "172" EmptyString)))) None None.

Definition no_password : SMTPConfig :=
  mkSMTPConfig (Some "smtp.example.org") (Some "587") (Some "me@example.org")
    None None None.

(** A relay that answers the reads with the given texts, then ends the
    stream, on a network where everything else succeeds. *)
Definition relay (texts : list string) (ms : Z) : World :=
  mkWorld (fun _ => Resolved) (fun _ => Resolved)
    (fun n => match nth_error texts n with
              | Some text => Chunk text
              | None => EndOfStream
              end)
    (fun _ => Resolved) Resolved Resolved Resolved Resolved
    "Mon, 02 Nov 2026 12:03:00 GMT" ms
    (Error (Some "Invalid character")).

Definition silent : World :=
  mkWorld (fun _ => Resolved) (fun _ => Resolved) (fun _ => EndOfStream)
    (fun _ => Resolved) Resolved Resolved Resolved Resolved
    "Mon, 02 Nov 2026 12:03:00 GMT" 1793620980000
    (Error (Some "Invalid character")).

Definition friendly : list string :=
  [ "220 smtp.example.org ESMTP" ++ CRLF;
    "250 smtp.example.org" ++ CRLF;
    "220 go ahead" ++ CRLF;
    "250 smtp.example.org" ++ CRLF;
    "334 VXNlcm5hbWU6" ++ CRLF;
    "334 UGFzc3dvcmQ6" ++ CRLF;
    "235 accepted" ++ CRLF;
    "250 sender ok" ++ CRLF;
    "250 recipient ok" ++ CRLF;
    "354 end with a dot" ++ CRLF;
    "250 queued" ++ CRLF;
    "221 bye" ++ CRLF ].

(** Another relay: same replies in other words. *)
Definition terse : list string :=
  [ "220"; "250"; "220"; "250"; "334"; "334"; "235"; "250"; "250"; "354";
    "250"; "221" ].

(** A relay that refuses EHLO. *)
Definition refusing : list string :=
  [ "220 smtp.example.org ESMTP" ++ CRLF; "500 error" ++ CRLF ].

(** A relay that refuses the password. *)
Definition denying : list string :=
  [ "220 smtp.example.org ESMTP" ++ CRLF;
    "250 smtp.example.org" ++ CRLF;
    "220 go ahead" ++ CRLF;
    "250 smtp.example.org" ++ CRLF;
    "334 VXNlcm5hbWU6" ++ CRLF;
    "334 UGFzc3dvcmQ6" ++ CRLF;
    "535 authentication failed" ++ CRLF ].

(** A subject that holds a line break and a header line after it. *)
Definition injected : EmailConfig :=
  mkEmailConfig (Some "a@b.com") (Some ("S" ++ CRLF ++ text_plain))
    (Some "B") (Some true) None.

(* ================================================================== *)
(** * Where a run stops *)
(* ================================================================== *)

(** The text [sendEmail] reports for a thrown value. *)
Definition thrown_text (e : Exception) : string :=
  or_else (message_of e) "Unknown error occurred".

(** The text of the probe's [catch]. *)
Definition unreachable (e : Exception) : string :=
  "SMTP server unreachable: " ++ tpl (message_of e).

(** The text of a read that finds the stream ended. *)
Definition no_response (conn : Conn) : string :=
  match conn with
  | Secure => "No secure response from server"
  | _ => "No response from server"
  end.

Definition is_write (ev : Event) : bool :=
  match ev with
  | Write _ _ => true
  | _ => false
  end.

Definition count_writes (tr : list Event) : nat := length (filter is_write tr).

(** [stop_text w nr nw ev]: the error of the call when the answer of the
    world to the operation [ev] stops it, [nr] reads and [nw] writes having
    been made before; [None] when the answer lets the call go on.  The
    answers to the two [releaseLock()] and to the three closing operations
    stop nothing. *)
Definition stop_text (w : World) (nr nw : nat) (ev : Event) : option string :=
  match ev with
  | Connect _ _ false =>
      match opened w Probe with
      | Resolved => None
      | Rejected e => Some (unreachable e)
      end
  | Close Probe =>
      match closed w Probe with
      | Resolved => None
      | Rejected e => Some (unreachable e)
      end
  | Connect _ _ true =>
      match opened w Plain with
      | Resolved => None
      | Rejected e => Some (thrown_text e)
      end
  | StartTls =>
      match opened w Secure with
      | Resolved => None
      | Rejected e => Some (thrown_text e)
      end
  | Read conn =>
      match replies w nr with
      | Chunk _ => None
      | EndOfStream => Some (no_response conn)
      | ReadFailed e => Some (thrown_text e)
      end
  | Write _ _ =>
      match written w nw with
      | Resolved => None
      | Rejected e => Some (thrown_text e)
      end
  | _ => None
  end.

Definition after_read (nr : nat) (ev : Event) : nat :=
  if is_read ev then S nr else nr.

Definition after_write (nw : nat) (ev : Event) : nat :=
  if is_write ev then S nw else nw.

(** [explained w c nr nw tr]: along [tr], an operation whose answer stops
    the call is the last one, and gives the result [c] its text. *)
Inductive explained (w : World) (c : Completion Result)
  : nat -> nat -> list Event -> Prop :=
| explained_end nr nw :
    explained w c nr nw []
| explained_on nr nw ev tr :
    stop_text w nr nw ev = None ->
    explained w c (after_read nr ev) (after_write nw ev) tr ->
    explained w c nr nw (ev :: tr)
| explained_stop nr nw ev text :
    stop_text w nr nw ev = Some text ->
    c = Normal (failure text) ->
    explained w c nr nw [ev].

(** The three closing operations of the success path. *)
Definition is_teardown (ev : Event) : bool :=
  match ev with
  | CloseWriter => true
  | CancelReader => true
  | Close Secure => true
  | _ => false
  end.

Definition is_connect (ev : Event) : bool :=
  match ev with
  | Connect _ _ _ => true
  | _ => false
  end.

(** Commands and replies alternate: after a write comes a read, or nothing. *)
Fixpoint lock_step (tr : list Event) : bool :=
  match tr with
  | [] => true
  | Write _ _ :: tr' =>
      match tr' with
      | [] => true
      | ev :: _ => is_read ev
      end && lock_step tr'
  | _ :: tr' => lock_step tr'
  end.

(** The same world with other outcomes for the two [releaseLock()]. *)
Definition with_releases (w : World) (a b : Settled) : World :=
  mkWorld (opened w) (closed w) (replies w) (written w) a b
    (writer_closed w) (reader_cancelled w) (utc_string w) (now w)
    (invalid_character w).

(** A computation that does the same in [w] whatever the two
    [releaseLock()] and the three closing operations answer. *)
Definition same (w : World) (a b x y z : Settled) {A} (m : Async A) : Prop :=
  forall st, m (with_teardown (with_releases w a b) x y z) st = m w st.

(** The transport of the [k]-th read of a session: the first three reads
    are made on the plaintext transport, the others on the secure one. *)
Definition read_transport (k : nat) : Conn :=
  if Nat.ltb k 3 then Plain else Secure.

Fixpoint reads_on (k : nat) (tr : list Event) : bool :=
  match tr with
  | [] => true
  | Read conn :: tr' =>
      match conn, read_transport k with
      | Plain, Plain => true
      | Secure, Secure => true
      | _, _ => false
      end && reads_on (S k) tr'
  | _ :: tr' => reads_on k tr'
  end.

(** The network and the relay let the plaintext phase through: the probe
    opens and closes, the session socket opens, EHLO and STARTTLS are
    accepted and the three replies pass. *)
Definition plain_phase_passes (w : World) : bool :=
  resolved (opened w Probe) && resolved (closed w Probe)
  && resolved (opened w Plain)
  && resolved (written w 0) && resolved (written w 1)
  && passes SMTP_READY (replies w 0) && passes SMTP_OK (replies w 1)
  && passes SMTP_READY (replies w 2).

(** Worlds for the examples. *)
Definition down (text : option string) : World :=
  mkWorld (fun _ => Rejected (Error text)) (fun _ => Resolved)
    (fun _ => EndOfStream) (fun _ => Resolved)
    Resolved Resolved Resolved Resolved
    "Mon, 02 Nov 2026 12:03:00 GMT" 0 (Error (Some "Invalid character")).

(** [w] with the sockets opening as [o] says and closing as [c] says. *)
Definition with_sockets (w : World) (o c : Conn -> Settled) : World :=
  mkWorld o c (replies w) (written w) (writer_released w) (reader_released w)
    (writer_closed w) (reader_cancelled w) (utc_string w) (now w)
    (invalid_character w).

(** [w] with the [n]-th write rejected. *)
Definition with_write_rejected (w : World) (n : nat) (e : Exception) : World :=
  mkWorld (opened w) (closed w) (replies w)
    (fun k => if Nat.eqb k n then Rejected e else written w k)
    (writer_released w) (reader_released w)
    (writer_closed w) (reader_cancelled w) (utc_string w) (now w)
    (invalid_character w).

(** [w] with the [n]-th read answered by [r]. *)
Definition with_reply (w : World) (n : nat) (r : ReadResult) : World :=
  mkWorld (opened w) (closed w)
    (fun k => if Nat.eqb k n then r else replies w k)
    (written w) (writer_released w) (reader_released w)
    (writer_closed w) (reader_cancelled w) (utc_string w) (now w)
    (invalid_character w).

(** ** How far a call goes *)

(** The call stops before its [i]-th operation: that operation would write
    a credential, and [btoa] throws on it. *)
Definition stops_before (env : SMTPConfig) (i : nat) : bool :=
  (Nat.eqb i at_username && negb (accepted_by_btoa (username env)))
  || (Nat.eqb i at_password
      && negb (accepted_by_btoa (tpl (SMTP_PASSWORD env)))).

(** The answer to the operation [ev] ends the call, [nr] reads and [nw]
    writes having been made before: a socket that does not open, a probe
    that does not close, a write that is rejected, a gated read whose reply
    does not pass its gate, a read after the gates that gives no chunk.  The
    two [releaseLock()] and the three closing operations end nothing. *)
Definition stops_at (w : World) (nr nw : nat) (ev : Event) : bool :=
  match ev with
  | Connect _ _ false => negb (resolved (opened w Probe))
  | Close Probe => negb (resolved (closed w Probe))
  | Connect _ _ true => negb (resolved (opened w Plain))
  | StartTls => negb (resolved (opened w Secure))
  | Write _ _ => negb (resolved (written w nw))
  | Read _ =>
      match nth_error gates nr with
      | Some (code, _) => negb (passes code (replies w nr))
      | None => negb (is_chunk (replies w nr))
      end
  | _ => false
  end.

(** The operations of [plan] that are carried out, [i] operations, [nr]
    reads and [nw] writes having been made before: each one in its turn,
    up to and including the first whose answer ends the call. *)
Fixpoint carried_out (env : SMTPConfig) (w : World) (i nr nw : nat)
    (plan : list Event) : list Event :=
  match plan with
  | [] => []
  | ev :: plan' =>
      if stops_before env i then []
      else
        ev :: (if stops_at w nr nw ev then []
               else carried_out env w (S i) (after_read nr ev)
                      (after_write nw ev) plan')
  end.

(** The operations of a call, as the fixed order and the answers of the
    network determine them. *)
Definition expected_run (emailConfig : EmailConfig) (env : SMTPConfig)
    (w : World) : list Event :=
  if configured emailConfig env
  then carried_out env w 0 0 0 (full_run emailConfig env w)
  else [].

(** [carried env w i nr nw plan tr]: [tr] is what is carried out of
    [plan]. *)
Inductive carried (env : SMTPConfig) (w : World)
  : nat -> nat -> nat -> list Event -> list Event -> Prop :=
| carried_end i nr nw :
    carried env w i nr nw [] []
| carried_before i nr nw plan :
    stops_before env i = true ->
    carried env w i nr nw plan []
| carried_stop i nr nw ev plan :
    stops_before env i = false ->
    stops_at w nr nw ev = true ->
    carried env w i nr nw (ev :: plan) [ev]
| carried_on i nr nw ev plan tr :
    stops_before env i = false ->
    stops_at w nr nw ev = false ->
    carried env w (S i) (after_read nr ev) (after_write nw ev) plan tr ->
    carried env w i nr nw (ev :: plan) (ev :: tr).

(* ================================================================== *)
(** * The worker: the [fetch] handler of [email-worker.ts] *)
(* ================================================================== *)

Definition quote_mark : string := String "034" EmptyString.
Definition backslash : string := String "092" EmptyString.
Definition LF : string := String "010" EmptyString.

(** ** [JSON.stringify] of the objects the handler builds

    The members of these objects are booleans and strings.  A string is
    quoted with the escapes of ECMAScript: the two-character escapes of
    backspace, tab, line feed, form feed, carriage return, the quotation
    mark and the backslash, and [u00XX] for the other controls. *)

Definition hex (n : N) : ascii :=
  match String.get (N.to_nat n) "0123456789abcdef" with
  | Some c => c
  | None => "0"%char
  end.

Definition json_char (c : ascii) : string :=
  let n := N_of_ascii c in
  (if n =? 8 then backslash ++ "b"
   else if n =? 9 then backslash ++ "t"
   else if n =? 10 then backslash ++ "n"
   else if n =? 12 then backslash ++ "f"
   else if n =? 13 then backslash ++ "r"
   else if n =? 34 then backslash ++ quote_mark
   else if n =? 92 then backslash ++ backslash
   else if n <? 32
   then backslash ++ "u00" ++ String (hex (n / 16)) (String (hex (n mod 16)) "")
   else String c "")%N.

Fixpoint json_chars (s : string) : string :=
  match s with
  | EmptyString => EmptyString
  | String c s' => json_char c ++ json_chars s'
  end.

Definition quote (s : string) : string :=
  quote_mark ++ json_chars s ++ quote_mark.

Inductive JsonValue : Type :=
| JsonBool (b : bool)
| JsonString (s : string).

Definition json_value (v : JsonValue) : string :=
  match v with
  | JsonBool true => "true"
  | JsonBool false => "false"
  | JsonString s => quote s
  end.

(** [JSON.stringify(object)]. *)
Definition stringify (members : list (string * JsonValue)) : string :=
  "{"
  ++ join "," (map (fun m => quote (fst m) ++ ":" ++ json_value (snd m)) members)
  ++ "}".

(** [JSON.stringify(object, null, 2)]. *)
Definition stringify_indented (members : list (string * JsonValue)) : string :=
  match members with
  | [] => "{}"
  | _ =>
      "{" ++ LF
      ++ join ("," ++ LF)
           (map (fun m => "  " ++ quote (fst m) ++ ": " ++ json_value (snd m))
              members)
      ++ LF ++ "}"
  end.

(** The own properties of the object [sendEmail] resolves to. *)
Definition members_of (r : Result) : list (string * JsonValue) :=
  (("success", JsonBool (success r))
   :: match message r with
      | Some text => [ ("message", JsonString text) ]
      | None => []
      end
   ++ match error r with
      | Some text => [ ("error", JsonString text) ]
      | None => []
      end)%list.

(** ** Requests and responses *)

Module Http.

(** What [request.json()] gives: a rejection when the body is not JSON;
    [null], of which reading a property throws the given TypeError; or a
    value, seen through the properties [to], [subject], [body], [isHtml] and
    [from] that the handler and [sendEmail] read, each of the type that
    [EmailConfig] declares for it. *)
Inductive Parsed : Type :=
| NotJson
| Null (thrown : Exception)
| Value (emailConfig : EmailConfig).

(** A request: its method, [headers.get('Authorization')] and its body. *)
Record Request : Type := mkRequest {
  method : string;
  authorization : option string;
  json : Parsed
}.

(** [new Response(body, { status, headers })]. *)
Record Response : Type := mkResponse {
  body : string;
  status : nat;
  headers : list (string * string)
}.

End Http.

(** ** [authHeader.replace(/^Bearer\s+/i, '')] *)

Definition lower (c : ascii) : ascii :=
  let n := N_of_ascii c in
  if ((65 <=? n) && (n <=? 90))%N then ascii_of_N (n + 32) else c.

(** What follows [word] at the start of [s], letters compared without
    case; [None] when [s] does not start with [word]. *)
Fixpoint after_word (word s : string) {struct word} : option string :=
  match word, s with
  | EmptyString, _ => Some s
  | String p word', String c s' =>
      if Ascii.eqb (lower c) (lower p) then after_word word' s' else None
  | String _ _, EmptyString => None
  end.

(** The header without a leading [Bearer] and the white space after it;
    the header itself when it does not start that way. *)
Definition strip_bearer (authHeader : string) : string :=
  match after_word "Bearer" authHeader with
  | Some rest =>
      let code := trimStart rest in
      if String.eqb code rest then authHeader else code
  | None => authHeader
  end.

(** ** The handler *)

Definition json_type : list (string * string) :=
  [ ("Content-Type", "application/json") ].

(** The body of the responses the handler writes itself. *)
Definition refusal (text : string) : string :=
  stringify [ ("success", JsonBool false); ("error", JsonString text) ].

(** Production Worker fetch handler. *)
Definition fetch (request : Http.Request) (env : SMTPConfig)
  : Async Http.Response :=
  (* Only allow POST requests *)
  if negb (String.eqb (Http.method request) "POST")
  then
    ret (Http.mkResponse
           (refusal
              "Only POST requests are allowed. Please send email configuration in request body.")
           405
           (json_type ++ [ ("Allow", "POST") ])%list)
  else
    try_catch
      ((* Check for AUTH_CODE in environment *)
       if negb (truthy (AUTH_CODE env))
       then
         ret (Http.mkResponse
                (refusal "Authentication not configured. Please contact administrator.")
                500 json_type)
       else
         (* Check for Authorization header *)
         let authHeader := Http.authorization request in
         if negb (truthy authHeader)
         then
           ret (Http.mkResponse
                  (refusal
                     ("Authorization header is required. Please provide "
                      ++ quote_mark ++ "Authorization: Bearer YOUR_AUTH_CODE"
                      ++ quote_mark ++ "."))
                  401
                  (json_type ++ [ ("WWW-Authenticate", "Bearer") ])%list)
         else
           (* Extract the auth code from the Bearer TOKEN format *)
           let authCode := strip_bearer (tpl authHeader) in
           if negb (truthy (Some authCode))
              || negb (String.eqb authCode (tpl (AUTH_CODE env)))
           then
             ret (Http.mkResponse
                    (refusal "Invalid authentication code. Access denied.")
                    403 json_type)
           else
             (* Parse request body for email configuration *)
             match Http.json request with
             | Http.NotJson =>
                 ret (Http.mkResponse
                        (refusal
                           "Invalid JSON in request body. Expected EmailConfig object with to, subject, and body fields.")
                        400 json_type)
             | Http.Null thrown => throw thrown
             | Http.Value emailConfig =>
                 (* Validate required fields *)
                 if negb (truthy (to emailConfig))
                    || negb (truthy (subject emailConfig))
                    || negb (truthy (body emailConfig))
                 then
                   ret (Http.mkResponse
                          (refusal
                             "Missing required fields: to, subject, and body are required in the request body.")
                          400 json_type)
                 else
                   (* Send the email *)
                   result <- sendEmail emailConfig env ;;
                   ret (Http.mkResponse
                          (stringify_indented (members_of result))
                          (if success result then 200 else 500)
                          json_type)
             end)
      (fun error =>
         ret (Http.mkResponse
                (stringify_indented
                   [ ("success", JsonBool false);
                     ("error",
                      JsonString
                        (or_else (message_of error) "Unknown error occurred")) ])
                500 json_type)).

(** One request: the response and what was done to the network. *)
Definition serve (request : Http.Request) (env : SMTPConfig) (w : World)
  : Completion Http.Response * list Event :=
  let (c, st) := fetch request env w start in (c, trace st).

(** The request passes the checks of the handler on its method and its
    authentication code. *)
Definition authenticated (request : Http.Request) (env : SMTPConfig) : bool :=
  String.eqb (Http.method request) "POST"
  && truthy (AUTH_CODE env)
  && truthy (Http.authorization request)
  && truthy (Some (strip_bearer (tpl (Http.authorization request))))
  && String.eqb (strip_bearer (tpl (Http.authorization request)))
       (tpl (AUTH_CODE env)).

(** The response to an authenticated request with the three fields: what
    [sendEmail] resolved to, as JSON, with status 200 or 500. *)
Definition answer (r : Result) : Http.Response :=
  Http.mkResponse (stringify_indented (members_of r))
    (if success r then 200 else 500) json_type.

(** The same request with another body. *)
Definition with_json (request : Http.Request) (parsed : Http.Parsed)
  : Http.Request :=
  Http.mkRequest (Http.method request) (Http.authorization request) parsed.

(* ================================================================== *)
(** * A caller: [sendWelcomeEmail] of [examples.ts] *)
(* ================================================================== *)

(** The text of the welcome message around the name of the user. *)
Definition welcome_before : string :=
  LF ++ "      <div style=" ++ quote_mark
    ++ "font-family: Arial, sans-serif; max-width: 600px; margin: 0 auto;"
    ++ quote_mark ++ ">" ++ LF
  ++ "        <h1 style=" ++ quote_mark ++ "color: #333;" ++ quote_mark
    ++ ">Welcome ".

Definition welcome_after : string :=
  "!</h1>" ++ LF
  ++ "        <p>We're excited to have you join our platform.</p>" ++ LF
  ++ "        <div style=" ++ quote_mark
    ++ "background: #f5f5f5; padding: 20px; border-radius: 8px;"
    ++ quote_mark ++ ">" ++ LF
  ++ "          <h3>Getting Started:</h3>" ++ LF
  ++ "          <ul>" ++ LF
  ++ "            <li>Complete your profile</li>" ++ LF
  ++ "            <li>Explore our features</li>" ++ LF
  ++ "            <li>Join our community</li>" ++ LF
  ++ "          </ul>" ++ LF
  ++ "        </div>" ++ LF
  ++ "        <p>If you have any questions, feel free to reach out!</p>" ++ LF
  ++ "        <p>Best regards,<br>The Team</p>" ++ LF
  ++ "      </div>" ++ LF
  ++ "    ".

(** The argument [sendWelcomeEmail] passes to [sendEmail]. *)
Definition welcome (userEmail userName : string) : EmailConfig :=
  mkEmailConfig (Some userEmail) (Some "Welcome to our platform!")
    (Some (welcome_before ++ userName ++ welcome_after))
    (Some true)
    (Some (mkSender (Some "welcome@company.com") (Some "Welcome Team"))).

(** Example usage in a service worker or scheduled event. *)
Definition sendWelcomeEmail (userEmail userName : string) (env : SMTPConfig)
  : Async Result :=
  sendEmail (welcome userEmail userName) env.

(** One call of [sendWelcomeEmail]: what it resolves to and what was done
    to the network. *)
Definition welcome_run (userEmail userName : string) (env : SMTPConfig)
    (w : World) : Completion Result * list Event :=
  let (c, st) := sendWelcomeEmail userEmail userName env w start in
  (c, trace st).

(* ================================================================== *)
(** * Concrete requests and networks *)
(* ================================================================== *)

(** An environment with the authentication code of the worker. *)
Definition guarded : SMTPConfig :=
  mkSMTPConfig (Some "smtp.example.org") (Some "587") (Some "me@example.org")
    (Some "secret") None (Some "s3cr3t").

Definition post (authorization : option string) (parsed : Http.Parsed)
  : Http.Request :=
  Http.mkRequest "POST" authorization parsed.

Definition refused : Exception := Error (Some "connection refused").

(** The things that can be opened or closed, one of them failing. *)
Definition all_but (failing : Conn) (conn : Conn) : Settled :=
  match failing, conn with
  | Probe, Probe => Rejected refused
  | Plain, Plain => Rejected refused
  | Secure, Secure => Rejected refused
  | _, _ => Resolved
  end.

Definition all_fine (conn : Conn) : Settled := Resolved.

(* ================================================================== *)
(** * Symbolic execution *)
(* ================================================================== *)

(** The scrutinee on which the evaluation of a term is blocked. *)
Ltac blocked t :=
  lazymatch t with
  | match ?x with _ => _ end => blocked x
  | (match ?x with _ => _ end) _ => blocked x
  | (match ?x with _ => _ end) _ _ => blocked x
  | _ => t
  end.

Ltac unfold_run H :=
  cbv beta iota zeta delta
    [ call sendEmail session bind try_catch ret throw when emit await ask
      connect close startTls read write js_btoa readResponse sendCommand
      readSecureResponse sendSecureCommand negb orb start reads writes trace
      new_Error message_of app SMTP_READY SMTP_OK SMTP_AUTH_SUCCESS
      SMTP_START_INPUT SMTP_AUTH_CONTINUE ] in H.

(** One step: settle the blocked scrutinee from a hypothesis, or by cases. *)
Ltac settle H :=
  lazymatch type of H with
  | match ?y with _ => _ end = _ =>
      let x := blocked y in
      first
        [ match goal with
          | E : x = _ |- _ => rewrite E in H
          end
        | destruct x eqn:? ]
  end;
  unfold_run H.

Ltac split_andb :=
  repeat match goal with
         | H : (_ && _)%bool = true |- _ =>
             apply andb_true_iff in H; destruct H
         end.

Ltac rewrite_btoa :=
  repeat match goal with
         | E : btoa _ = _ |- _ => rewrite E
         end.

Ltac walk_gates :=
  repeat first
    [ apply gated_end
    | apply gated_other; [ reflexivity | ]
    | eapply gated_pass; [ eassumption | eassumption | ]
    | eapply gated_mismatch; [ eassumption | eassumption | reflexivity ]
    | eapply gated_no_reply; eassumption
    | eapply gated_read_failed; eassumption
    | apply gated_unchecked ].

Ltac answer_known :=
  cbn [stop_text];
  repeat match goal with
         | E : ?x = _ |- context [match ?x with _ => _ end] => rewrite E
         end;
  reflexivity.

Ltac walk_stops :=
  repeat first
    [ apply explained_end
    | apply explained_on;
      [ answer_known | cbn [after_read after_write is_read is_write] ]
    | eapply explained_stop; [ answer_known | reflexivity ] ].

(** Settle what [stops_before] or [stops_at] says from the hypotheses. *)
Ltac stop_known :=
  cbv beta iota delta
    [ stops_before stops_at at_username at_password Nat.eqb andb orb negb
      accepted_by_btoa username passes resolved is_chunk nth_error gates ];
  repeat (match goal with
          | E : ?x = _ |- context [match ?x with _ => _ end] => rewrite E
          end;
          cbv beta iota);
  reflexivity.

Ltac walk_plan :=
  repeat first
    [ apply carried_end
    | apply carried_on;
      [ stop_known | stop_known
      | cbn [after_read after_write is_read is_write] ]
    | apply carried_stop; [ stop_known | stop_known ]
    | apply carried_before; stop_known ].

(* ================================================================== *)
(** * The platform functions at work *)
(* ================================================================== *)

Example trim_reply :
  trim (" 220 smtp ready " ++ String "013" (String "010" "")) = "220 smtp ready".
Proof. reflexivity. Qed.

Example btoa_user : btoa "user@example.com" = Some "dXNlckBleGFtcGxlLmNvbQ==".
Proof. reflexivity. Qed.

Example btoa_latin1 : btoa (String "195" (String "169" "")) = Some "6Q==".
Proof. reflexivity. Qed.

Example btoa_euro : btoa (String "226" (String "130" (String "172" ""))) = None.
Proof. reflexivity. Qed.

Example parseInt_587 : parseInt "587" = Num 587.
Proof. reflexivity. Qed.

Example parseInt_junk : parseInt " 25abc" = Num 25 /\ parseInt "smtp" = NaN /\ parseInt "0x1F" = Num 31.
Proof. repeat split; reflexivity. Qed.

Example decimal_now : decimal 1762084980123 = "1762084980123".
Proof. reflexivity. Qed.

(* ================================================================== *)
(** * Strings *)
(* ================================================================== *)

Lemma append_assoc (a b c : string) : (a ++ b) ++ c = a ++ b ++ c.
Proof. induction a as [|x a IH]; cbn; [ reflexivity | rewrite IH; reflexivity ]. Qed.

Lemma length_append (a b : string) :
  String.length (a ++ b) = String.length a + String.length b.
Proof. induction a as [|x a IH]; cbn; [ reflexivity | rewrite IH; reflexivity ]. Qed.

Lemma append_cancel_r (a b tail : string) : a ++ tail = b ++ tail -> a = b.
Proof.
  revert b. induction a as [|x a IH]; intros [|y b] H; cbn in H.
  - reflexivity.
  - apply (f_equal String.length) in H. cbn in H. rewrite length_append in H. lia.
  - apply (f_equal String.length) in H. cbn in H. rewrite length_append in H. lia.
  - injection H as -> H. rewrite (IH b H). reflexivity.
Qed.

Lemma append_cancel_l (head a b : string) : head ++ a = head ++ b -> a = b.
Proof.
  induction head as [|x head IH]; cbn; intros H; [ exact H | ].
  injection H as H. exact (IH H).
Qed.

Lemma join_app (sep : string) (xs ys : list string) :
  xs <> [] -> ys <> [] ->
  join sep (xs ++ ys) = join sep xs ++ sep ++ join sep ys.
Proof.
  intros Hxs Hys. induction xs as [|x [|x' xs] IH]; [ contradiction | | ].
  - destruct ys as [|y ys]; [ contradiction | reflexivity ].
  - change (join sep ((x :: x' :: xs) ++ ys)) with (x ++ sep ++ join sep ((x' :: xs) ++ ys)).
    rewrite IH by discriminate.
    change (join sep (x :: x' :: xs)) with (x ++ sep ++ join sep (x' :: xs)).
    rewrite !append_assoc. reflexivity.
Qed.

(** The decimal rendering tells integers apart. *)
Lemma decimal_inj (a b : Z) : decimal a = decimal b -> a = b.
Proof.
  unfold decimal. intros H.
  apply DecimalZ.to_int_inj.
  assert (Hparse : forall z, NilZero.int_of_string (NilZero.string_of_int (Z.to_int z))
                             = Some (Z.to_int z)).
  { intros z. apply NilZero.isi; destruct z; cbn; try discriminate;
      intros [= E]; revert E; apply DecimalPos.Unsigned.to_uint_nonnil. }
  pose proof (Hparse a) as Ha. rewrite H, Hparse in Ha. injection Ha as Ha.
  symmetry. exact Ha.
Qed.

(** ** Trimming keeps a leading reply code *)

Lemma startsWith_cons (c p : ascii) (s q : string) :
  startsWith (String c s) (String p q) = true -> c = p /\ startsWith s q = true.
Proof.
  cbn [startsWith]. intros H. apply andb_true_iff in H as [Hc Hs].
  apply Ascii.eqb_eq in Hc. split; assumption.
Qed.

Lemma trimStart_solid (c : ascii) (s : string) :
  solid c = true -> trimStart (String c s) = String c s.
Proof.
  unfold solid. intros H. split_andb.
  repeat match goal with
         | E : negb _ = true |- _ => apply negb_true_iff in E
         end.
  cbn [trimStart].
  match goal with E : ws1 c = false |- _ => rewrite E end.
  destruct s as [|d [|e s]]; try reflexivity; unfold ws2, ws3; cbn zeta;
    repeat match goal with
           | E : (N_of_ascii c =? _)%N = false |- _ => rewrite E
           end;
    reflexivity.
Qed.

Lemma trimEnd_solid (c : ascii) (s : string) :
  solid c = true -> trimEnd (String c s) = String c (trimEnd s).
Proof.
  intros H. cbn [trimEnd]. unfold blank.
  rewrite (trimStart_solid c s H). reflexivity.
Qed.

(** A reply that begins with one of the five codes still does once trimmed. *)
Lemma startsWith_trim (text code : string) :
  In code [SMTP_READY; SMTP_OK; SMTP_AUTH_SUCCESS; SMTP_START_INPUT; SMTP_AUTH_CONTINUE] ->
  startsWith text code = true ->
  startsWith (trim text) code = true.
Proof.
  intros Hcode H. cbn in Hcode.
  repeat (destruct Hcode as [<- | Hcode]); try contradiction.
  all: destruct text as [|a [|b [|c text]]];
    try (cbn in H; rewrite ?andb_false_r in H; discriminate H).
  all: apply startsWith_cons in H as [-> H];
    apply startsWith_cons in H as [-> H];
    apply startsWith_cons in H as [-> _].
  all: unfold trim; rewrite trimStart_solid by reflexivity;
    rewrite !trimEnd_solid by reflexivity; reflexivity.
Qed.

(* ================================================================== *)
(** * Runs of [sendEmail] *)
(* ================================================================== *)

Lemma truthy_username (env : SMTPConfig) :
  truthy (Some (or_else (SMTP_USERNAME env) "")) = truthy (SMTP_USERNAME env).
Proof. destruct (SMTP_USERNAME env) as [[|c s]|]; reflexivity. Qed.

Lemma truthy_some (x : option string) :
  truthy x = true -> exists s, x = Some s /\ or_else x "" = s /\ tpl x = s /\ item x = s.
Proof.
  destruct x as [[|c s]|]; try discriminate. intros _.
  exists (String c s). repeat split; reflexivity.
Qed.

Lemma resolved_true (s : Settled) : resolved s = true -> s = Resolved.
Proof. destruct s; [ reflexivity | discriminate ]. Qed.

Lemma passes_true (code : string) (r : ReadResult) :
  passes code r = true ->
  exists text, r = Chunk text /\ startsWith (trim text) code = true.
Proof. destruct r as [text| |e]; try discriminate. intros H. exists text. split; [ reflexivity | exact H ]. Qed.

Lemma is_chunk_true (r : ReadResult) :
  is_chunk r = true -> exists text, r = Chunk text.
Proof. destruct r as [text| |e]; try discriminate. intros _. exists text. reflexivity. Qed.

Lemma accepted_by_btoa_true (s : string) :
  accepted_by_btoa s = true -> exists b, btoa s = Some b.
Proof. unfold accepted_by_btoa. destruct (btoa s) as [b|]; [ exists b; reflexivity | discriminate ]. Qed.

Lemma leads_passes (code : string) (r : ReadResult) :
  In code [SMTP_READY; SMTP_OK; SMTP_AUTH_SUCCESS; SMTP_START_INPUT; SMTP_AUTH_CONTINUE] ->
  leads code r = true -> passes code r = true.
Proof.
  destruct r as [text| |e]; cbn; intros Hcode H; try discriminate H.
  apply startsWith_trim; assumption.
Qed.

Lemma replies_lead_pass (w : World) :
  replies_lead w = true -> gates_pass w = true.
Proof.
  unfold replies_lead, gates_pass.
  cbn [forallb seq combine gates fst snd]. intros H. split_andb.
  repeat match goal with
         | L : leads _ _ = true |- _ =>
             apply leads_passes in L;
             [ rewrite L; clear L | cbn; intuition congruence ]
         end.
  reflexivity.
Qed.

Lemma bind_normal {A B} (m : Async A) (k : A -> Async B) w st b st' :
  bind m k w st = (Normal b, st') ->
  exists a st1, m w st = (Normal a, st1) /\ k a w st1 = (Normal b, st').
Proof.
  unfold bind. destruct (m w st) as [[a|e] st1]; intros H; [ | discriminate H ].
  exists a, st1. split; [ reflexivity | exact H ].
Qed.

(** The [try] block completes normally only through its [return]. *)
Lemma session_returns (emailConfig : EmailConfig) (env : SMTPConfig) w st r st' :
  session emailConfig env w st = (Normal r, st') ->
  r = sent (tpl (to emailConfig)).
Proof.
  intros H. unfold session in H. cbv zeta in H.
  repeat (apply bind_normal in H; destruct H as (? & ? & _ & H); cbv beta zeta in H).
  unfold ret in H. injection H as <- _. reflexivity.
Qed.

Lemma call_run (emailConfig : EmailConfig) (env : SMTPConfig) (w : World) :
  exists c st,
    sendEmail emailConfig env w start = (c, st)
    /\ call emailConfig env w = (c, trace st).
Proof.
  unfold call. destruct (sendEmail emailConfig env w start) as [c st].
  exists c, st. split; reflexivity.
Qed.

(** Every run, whatever the network answers: its events are an initial
    segment of [full_run], and it is [gated]. *)
Lemma run_shape (emailConfig : EmailConfig) (env : SMTPConfig) (w : World)
    (c : Completion Result) (st : Session) :
  sendEmail emailConfig env w start = (c, st) ->
  (exists rest, full_run emailConfig env w = (trace st ++ rest)%list)
  /\ gated w c gates 0 (trace st).
Proof.
  intros H. unfold_run H.
  repeat settle H.
  all: injection H as <- <-.
  all: split;
    [ unfold full_run, payload, host, port, username, sender_address,
        sender_name, b64;
      rewrite_btoa; cbn [trace app]; eexists; reflexivity
    | cbn [trace]; unfold gates; walk_gates ].
Qed.

Lemma count_reads_cons (ev : Event) (tr : list Event) :
  count_reads (ev :: tr) = (if is_read ev then S (count_reads tr) else count_reads tr).
Proof. unfold count_reads. cbn [filter]. destruct (is_read ev); reflexivity. Qed.

(** A gate that is reached and not passed stops the session at its read. *)
Lemma gated_stop (w : World) (c : Completion Result) gs k tr :
  gated w c gs k tr ->
  forall j code label,
    nth_error gs j = Some (code, label) ->
    j < count_reads tr ->
    passes code (replies w (k + j)) = false ->
    count_reads tr = S j
    /\ (exists pre conn, tr = (pre ++ [Read conn])%list)
    /\ (forall text, replies w (k + j) = Chunk text ->
          c = Normal (failure (label ++ ": " ++ trim text))).
Proof.
  induction 1 as
    [ gs k | gs k ev tr Hev Htr IH | k conn tr Htr IH
    | code0 label0 gs k conn text tr Hreply Hstart Htr IH
    | code0 label0 gs k conn text Hreply Hstart Hc
    | code0 label0 gs k conn Hreply | code0 label0 gs k conn e Hreply ];
    intros j code label Hgate Hreached Hfails.
  - cbn in Hreached. lia.
  - rewrite count_reads_cons, Hev in *.
    destruct (IH j code label Hgate Hreached Hfails) as (Hn & (pre & conn & ->) & Hc).
    split; [ exact Hn | split; [ | exact Hc ] ].
    exists (ev :: pre), conn. reflexivity.
  - destruct j; discriminate Hgate.
  - rewrite count_reads_cons in *. cbn [is_read] in *.
    destruct j as [|j].
    + injection Hgate as <- <-. rewrite Nat.add_0_r in Hfails.
      rewrite Hreply in Hfails. cbn in Hfails. congruence.
    + cbn in Hgate. replace (k + S j) with (S k + j) in * by lia.
      destruct (IH j code label Hgate ltac:(lia) Hfails) as (Hn & (pre & conn' & ->) & Hc).
      split; [ lia | split; [ | exact Hc ] ].
      exists (Read conn :: pre), conn'. reflexivity.
  - cbn in Hreached. assert (j = 0) as -> by lia.
    injection Hgate as <- <-. rewrite Nat.add_0_r.
    split; [ reflexivity | split ].
    + exists [], conn. reflexivity.
    + intros text' Htext'. rewrite Hreply in Htext'. injection Htext' as <-. exact Hc.
  - cbn in Hreached. assert (j = 0) as -> by lia. rewrite Nat.add_0_r.
    split; [ reflexivity | split ].
    + exists [], conn. reflexivity.
    + intros text' Htext'. congruence.
  - cbn in Hreached. assert (j = 0) as -> by lia. rewrite Nat.add_0_r.
    split; [ reflexivity | split ].
    + exists [], conn. reflexivity.
    + intros text' Htext'. congruence.
Qed.

Lemma upgrade_respected_prefix (tr rest : list Event) :
  forall upgrading,
    upgrade_respected upgrading (tr ++ rest) = true ->
    upgrade_respected upgrading tr = true.
Proof.
  induction tr as [|ev tr IH]; intros upgrading H; [ reflexivity | ].
  cbn in *. apply andb_true_iff in H as [H1 H2].
  rewrite H1, (IH _ H2). reflexivity.
Qed.

Lemma upgrade_respected_after (post : list Event) :
  upgrade_respected true post = true ->
  Forall (fun ev => on_plain ev = false) post.
Proof.
  induction post as [|ev post IH]; intros H; constructor.
  - cbn in H. apply andb_true_iff in H as [H _].
    destruct (on_plain ev); [ discriminate H | reflexivity ].
  - apply IH. cbn in H. apply andb_true_iff in H as [_ H]. exact H.
Qed.

Lemma upgrade_respected_split (pre post : list Event) :
  forall upgrading,
    upgrade_respected upgrading (pre ++ ReleaseWriter :: post) = true ->
    Forall (fun ev => on_plain ev = false) post.
Proof.
  induction pre as [|ev pre IH]; intros upgrading H.
  - cbn in H. rewrite orb_true_r in H.
    apply andb_true_iff in H as [_ H]. apply upgrade_respected_after, H.
  - cbn in H. apply andb_true_iff in H as [_ H]. exact (IH _ H).
Qed.

Lemma full_run_respects_upgrade emailConfig env w :
  upgrade_respected false (full_run emailConfig env w) = true.
Proof. reflexivity. Qed.

(** On a network that works, with credentials [btoa] accepts and replies
    that pass the eleven gates, a reply to QUIT is all a configured call
    needs to run to its end and report success. *)
Lemma full_session (emailConfig : EmailConfig) (env : SMTPConfig) (w : World) :
  configured emailConfig env = true ->
  encodable env = true ->
  accepting w = true ->
  gates_pass w = true ->
  is_chunk (replies w 11) = true ->
  call emailConfig env w
  = (Normal (sent (tpl (to emailConfig))), full_run emailConfig env w).
Proof.
  intros Hcfg Henc Hnet Hgates Hquit.
  unfold configured in Hcfg. rewrite <- truthy_username in Hcfg.
  unfold encodable, username in Henc.
  unfold accepting in Hnet. cbn [forallb seq] in Hnet.
  unfold gates_pass in Hgates. cbn [forallb seq combine gates fst snd] in Hgates.
  split_andb.
  repeat match goal with
         | R : resolved _ = true |- _ => apply resolved_true in R
         | P : passes _ _ = true |- _ =>
             apply passes_true in P; destruct P as (? & ? & ?)
         | B : accepted_by_btoa _ = true |- _ =>
             apply accepted_by_btoa_true in B; destruct B as (? & B)
         end.
  apply is_chunk_true in Hquit as [quit Hquit].
  destruct (call_run emailConfig env w) as (c & st & Hrun & ->).
  unfold_run Hrun.
  repeat settle Hrun.
  all: injection Hrun as <- <-.
  all: unfold full_run, payload, host, port, username, sender_address,
         sender_name, b64, sent.
  all: rewrite_btoa; reflexivity.
Qed.

(** A call that fails the checks on its arguments asks nothing of the
    network. *)
Lemma unconfigured_call (emailConfig : EmailConfig) (env : SMTPConfig) (w : World) :
  configured emailConfig env = false ->
  exists text, call emailConfig env w = (Normal (failure text), []).
Proof.
  intros Hcfg. unfold configured in Hcfg. rewrite <- truthy_username in Hcfg.
  destruct (call_run emailConfig env w) as (c & st & Hrun & ->).
  destruct (truthy (SMTP_PASSWORD env)) eqn:Hpassword;
    destruct (truthy (Some (or_else (SMTP_USERNAME env) ""))) eqn:Husername;
    destruct (truthy (to emailConfig)) eqn:Hto;
    destruct (truthy (subject emailConfig)) eqn:Hsubject;
    destruct (truthy (body emailConfig)) eqn:Hbody;
    try discriminate Hcfg.
  all: unfold_run Hrun; repeat settle Hrun.
  all: injection Hrun as <- <-; eexists; reflexivity.
Qed.

Lemma started_configured (emailConfig : EmailConfig) (env : SMTPConfig) (w : World) :
  snd (call emailConfig env w) <> [] -> configured emailConfig env = true.
Proof.
  intros Hstarted. destruct (configured emailConfig env) eqn:Hcfg; [ reflexivity | ].
  destruct (unconfigured_call emailConfig env w Hcfg) as [text Hcall].
  rewrite Hcall in Hstarted. contradiction Hstarted. reflexivity.
Qed.

Lemma event_of_full_run (emailConfig : EmailConfig) (env : SMTPConfig) (w : World)
    (n : nat) (ev : Event) :
  nth_error (snd (call emailConfig env w)) n = Some ev ->
  nth_error (full_run emailConfig env w) n = Some ev.
Proof.
  intros Hev.
  destruct (call_run emailConfig env w) as (c & st & Hrun & Hcall).
  rewrite Hcall in Hev. cbn [snd] in Hev.
  destruct (run_shape _ _ _ Hrun) as [[rest ->] _].
  rewrite nth_error_app1; [ exact Hev | ].
  apply nth_error_Some. congruence.
Qed.

Lemma event_started (emailConfig : EmailConfig) (env : SMTPConfig) (w : World)
    (n : nat) (ev : Event) :
  nth_error (snd (call emailConfig env w)) n = Some ev ->
  configured emailConfig env = true.
Proof.
  intros Hev. apply (started_configured emailConfig env w).
  intros Hnil. rewrite Hnil in Hev. destruct n; discriminate Hev.
Qed.

(** A user name that [btoa] rejects is never written. *)
Lemma unencodable_username (emailConfig : EmailConfig) (env : SMTPConfig) (w : World) :
  btoa (username env) = None ->
  length (snd (call emailConfig env w)) <= at_username.
Proof.
  unfold username. intros Hbtoa.
  destruct (call_run emailConfig env w) as (c & st & Hrun & ->).
  unfold_run Hrun. repeat settle Hrun.
  all: injection Hrun as <- <-; unfold at_username, at_password; cbn; lia.
Qed.

Lemma unencodable_password (emailConfig : EmailConfig) (env : SMTPConfig) (w : World) :
  btoa (tpl (SMTP_PASSWORD env)) = None ->
  length (snd (call emailConfig env w)) <= at_password.
Proof.
  intros Hbtoa.
  destruct (call_run emailConfig env w) as (c & st & Hrun & ->).
  unfold_run Hrun. repeat settle Hrun.
  all: injection Hrun as <- <-; unfold at_username, at_password; cbn; lia.
Qed.

(** ** How far a run goes *)

Lemma carried_spec (env : SMTPConfig) (w : World) i nr nw plan tr :
  carried env w i nr nw plan tr -> tr = carried_out env w i nr nw plan.
Proof.
  induction 1 as [ i nr nw | i nr nw plan Hbefore | i nr nw ev plan Hbefore Hat
                 | i nr nw ev plan tr Hbefore Hat _ IH ].
  - reflexivity.
  - destruct plan; cbn; [ | rewrite Hbefore ]; reflexivity.
  - cbn. rewrite Hbefore, Hat. reflexivity.
  - cbn. rewrite Hbefore, Hat, <- IH. reflexivity.
Qed.

(** Every run, whatever the network answers: its operations are the ones
    [expected_run] gives. *)
Lemma run_carried (emailConfig : EmailConfig) (env : SMTPConfig) (w : World) :
  snd (call emailConfig env w) = expected_run emailConfig env w.
Proof.
  unfold expected_run.
  destruct (configured emailConfig env) eqn:Hcfg.
  - apply carried_spec.
    unfold configured in Hcfg. rewrite <- truthy_username in Hcfg. split_andb.
    destruct (call_run emailConfig env w) as (c & st & Hrun & ->).
    unfold_run Hrun. repeat settle Hrun.
    all: injection Hrun as <- <-.
    all: cbn [snd trace]; unfold full_run, b64, username; rewrite_btoa.
    all: walk_plan.
  - destruct (unconfigured_call emailConfig env w Hcfg) as [text ->].
    reflexivity.
Qed.

(** ** Lines *)

Lemma lines_of_cons (c : ascii) (rest : string) :
  Ascii.eqb c "013" = false ->
  lines_of (String c rest) = push c (lines_of rest).
Proof.
  intros Hc. cbn [lines_of]. destruct rest; [ reflexivity | ].
  rewrite Hc. reflexivity.
Qed.

(** A line without carriage return, then CRLF: the line is the first of
    the lines. *)
Lemma lines_of_line (line rest : string) :
  no_return line = true ->
  lines_of (line ++ CRLF ++ rest) = line :: lines_of rest.
Proof.
  induction line as [|c line IH]; intros Hline; [ reflexivity | ].
  cbn [no_return] in Hline. apply andb_true_iff in Hline as [Hc Hline].
  apply negb_true_iff in Hc.
  change (String c line ++ CRLF ++ rest) with (String c (line ++ CRLF ++ rest)).
  rewrite (@lines_of_cons c _ Hc), (IH Hline). reflexivity.
Qed.

Lemma no_return_app (a b : string) :
  no_return (a ++ b) = no_return a && no_return b.
Proof.
  induction a as [|c a IH]; [ reflexivity | ].
  cbn. rewrite IH, andb_assoc. reflexivity.
Qed.

Lemma no_return_uint (d : Decimal.uint) :
  no_return (NilEmpty.string_of_uint d) = true.
Proof. induction d; cbn; auto. Qed.

Lemma no_return_decimal (z : Z) : no_return (decimal z) = true.
Proof.
  unfold decimal, NilZero.string_of_int.
  destruct (Z.to_int z) as [d | d]; unfold NilZero.string_of_uint;
    destruct d; cbn; try reflexivity; apply no_return_uint.
Qed.

(** The header block of the payload of a call whose fields hold no carriage
    return is made of the header lines the composer built. *)
Lemma header_block_payload (emailConfig : EmailConfig) (env : SMTPConfig)
    (w : World) :
  one_line_fields emailConfig env w = true ->
  header_block (payload emailConfig env w) = headers emailConfig env w.
Proof.
  unfold one_line_fields. intros Hfields. split_andb.
  unfold header_block, payload, headers, emailMessage, emailHeaders.
  destruct (or_false (isHtml emailConfig)).
  all: cbn [List.app join String.concat].
  all: repeat (rewrite lines_of_line;
               [ | rewrite ?no_return_app, ?no_return_decimal;
                   repeat match goal with
                          | E : no_return _ = true |- _ => rewrite E
                          end;
                   reflexivity ]).
  all: reflexivity.
Qed.

(* ================================================================== *)
(** * Properties of [sendEmail] *)
(* ================================================================== *)

(** C1, as stated, fails: every argument is present, the network works and
    the relay answers 220, 250, 220, 250, 334, 334, 235, 250, 250, 354, 250
    and 221, yet the call fails, because [btoa] rejects the password. *)
Lemma euro_password_counterexample :
  configured hello euro = true
  /\ accepting (relay friendly 0) = true
  /\ replies_lead (relay friendly 0) = true
  /\ is_chunk (replies (relay friendly 0) 11) = true
  /\ fst (call hello euro (relay friendly 0))
     = Normal (mkResult false None (Some "Invalid character")).
Proof. repeat split; reflexivity. Qed.

(** C1 (amended). For every call whose recipient, subject, body, user name
    and password are present, whose user name and password [btoa] accepts,
    on a network that works: if the replies begin with 220, 250, 220, 250,
    334, 334, 235, 250, 250, 354, 250 and QUIT gets any reply, the call
    resolves to [success = true] with the message
    ["Email sent successfully to " ++ recipient]. *)
Theorem scripted_replies_deliver
    (emailConfig : EmailConfig) (env : SMTPConfig) (w : World) :
  configured emailConfig env = true ->
  encodable env = true ->
  accepting w = true ->
  replies_lead w = true ->
  is_chunk (replies w 11) = true ->
  exists recipient,
    to emailConfig = Some recipient
    /\ fst (call emailConfig env w)
       = Normal (mkResult true (Some ("Email sent successfully to " ++ recipient)) None).
Proof.
  intros Hcfg Henc Hnet Hlead Hquit.
  rewrite (full_session emailConfig env w Hcfg Henc Hnet (replies_lead_pass w Hlead) Hquit).
  unfold configured in Hcfg. split_andb.
  destruct (to emailConfig) as [recipient|]; [ | discriminate ].
  exists recipient. split; reflexivity.
Qed.

Lemma scripted_replies_deliver_witness :
  exists recipient,
    to hello = Some recipient
    /\ fst (call hello office (relay friendly 0))
       = Normal (mkResult true (Some ("Email sent successfully to " ++ recipient)) None).
Proof.
  apply (scripted_replies_deliver hello office (relay friendly 0)); reflexivity.
Defined.

(** C2. At each of the eleven gated steps: when the session reads a reply at
    that step and the trimmed reply text does not begin with the code the step
    expects, the call resolves to [success = false] with the error
    [label ++ ": " ++ reply], the label of that step followed by the trimmed
    reply text. *)
Theorem mismatch_reports_step
    (emailConfig : EmailConfig) (env : SMTPConfig) (w : World)
    (k : nat) (code label text : string) :
  nth_error gates k = Some (code, label) ->
  k < count_reads (snd (call emailConfig env w)) ->
  replies w k = Chunk text ->
  startsWith (trim text) code = false ->
  fst (call emailConfig env w)
  = Normal (mkResult false None (Some (label ++ ": " ++ trim text))).
Proof.
  intros Hgate Hreached Hreply Hstart.
  destruct (call_run emailConfig env w) as (c & st & Hrun & Hcall).
  rewrite Hcall in *. cbn [fst snd] in *.
  destruct (run_shape _ _ _ Hrun) as [_ Hgated].
  destruct (gated_stop Hgated Hgate Hreached) as (_ & _ & Hc).
  - cbn [Nat.add]. rewrite Hreply. exact Hstart.
  - exact (Hc text Hreply).
Qed.

Lemma mismatch_reports_step_witness :
  fst (call hello office (relay refusing 0))
  = Normal (mkResult false None (Some "EHLO failed: 500 error")).
Proof.
  apply (@mismatch_reports_step hello office (relay refusing 0) 1
           "250" "EHLO failed" ("500 error" ++ CRLF)).
  - reflexivity.
  - cbn. lia.
  - reflexivity.
  - reflexivity.
Defined.

(** C3. Whatever the network answers, the operations of a call are an
    initial segment of the one fixed sequence [full_run] (probe, connection,
    greeting read, EHLO, STARTTLS, upgrade, EHLO, AUTH LOGIN, user name,
    password, MAIL FROM, RCPT TO, DATA, payload, QUIT, teardown, a read after
    each command); a gated read whose reply does not pass its gate is the last
    operation of the call; after the upgrade has begun with the release of
    the plaintext writer, nothing is read from or written to the plaintext
    transport; and the call goes as far as the answers allow: its operations
    are exactly [expected_run], the fixed sequence up to and including the
    first operation whose answer ends the call (a socket that does not open,
    a write that is rejected, a gated read whose reply does not pass its gate,
    a read that gives no reply), or up to the credential that [btoa] rejects,
    so that each command is issued as soon as the reply before it has passed
    its gate. *)
Theorem session_follows_fixed_order
    (emailConfig : EmailConfig) (env : SMTPConfig) (w : World) :
  let tr := snd (call emailConfig env w) in
  (exists rest, full_run emailConfig env w = (tr ++ rest)%list)
  /\ (forall k code label,
        nth_error gates k = Some (code, label) ->
        k < count_reads tr ->
        passes code (replies w k) = false ->
        count_reads tr = S k /\ exists pre conn, tr = (pre ++ [Read conn])%list)
  /\ (forall pre post,
        tr = (pre ++ ReleaseWriter :: post)%list ->
        Forall (fun ev => on_plain ev = false) post)
  /\ tr = expected_run emailConfig env w.
Proof.
  pose proof (run_carried emailConfig env w) as Hcarried.
  destruct (call_run emailConfig env w) as (c & st & Hrun & Hcall).
  rewrite Hcall in *. cbn [snd] in *.
  destruct (run_shape _ _ _ Hrun) as [[rest Hrest] Hgated].
  split; [ exists rest; exact Hrest | split; [ | split ] ].
  - intros k code label Hgate Hreached Hfails.
    destruct (gated_stop Hgated Hgate Hreached Hfails) as (Hcount & Hlast & _).
    split; assumption.
  - intros pre post Hsplit.
    apply (@upgrade_respected_split pre post false).
    rewrite <- Hsplit.
    apply upgrade_respected_prefix with (rest := rest).
    rewrite <- Hrest. apply full_run_respects_upgrade.
  - exact Hcarried.
Qed.

Lemma session_follows_fixed_order_witness :
  snd (call hello office (relay friendly 0))
  = full_run hello office (relay friendly 0)
  /\ snd (call hello office (relay denying 0))
     = firstn 19 (full_run hello office (relay denying 0))
  /\ snd (call hello office (relay refusing 0))
     = firstn 6 (full_run hello office (relay refusing 0)).
Proof.
  destruct (session_follows_fixed_order hello office (relay friendly 0))
    as (_ & _ & _ & Hfriendly).
  destruct (session_follows_fixed_order hello office (relay denying 0))
    as (_ & _ & _ & Hdenying).
  destruct (session_follows_fixed_order hello office (relay refusing 0))
    as (_ & _ & _ & Hrefusing).
  rewrite Hfriendly, Hdenying, Hrefusing.
  repeat split; reflexivity.
Defined.

(** C4. When the password, the user name, the recipient, the subject or the
    body is missing (undefined or empty), the call resolves to a failure and
    nothing at all was asked of the network: no probe, no session connection,
    no command. *)
Theorem missing_configuration_stops_early
    (emailConfig : EmailConfig) (env : SMTPConfig) (w : World) :
  configured emailConfig env = false ->
  snd (call emailConfig env w) = []
  /\ exists text,
       fst (call emailConfig env w) = Normal (mkResult false None (Some text)).
Proof.
  intros Hcfg.
  destruct (unconfigured_call emailConfig env w Hcfg) as [text ->].
  split; [ reflexivity | exists text; reflexivity ].
Qed.

Lemma missing_configuration_stops_early_witness :
  snd (call hello no_password silent) = []
  /\ exists text,
       fst (call hello no_password silent) = Normal (mkResult false None (Some text)).
Proof.
  apply (missing_configuration_stops_early hello no_password silent).
  reflexivity.
Defined.

(** C5. The tenth command of a session, the one that follows the 354 reply
    to DATA, is a single write of the payload followed by CRLF; the payload is
    the eight header lines, an empty line, the body and a line holding a dot,
    joined with CRLF; so what goes on the wire is the header block, CRLF CRLF,
    the body exactly as the caller gave it (a dot at the start of a body line
    is left as it is), and CRLF "." CRLF at the very end. *)
Theorem data_payload_on_the_wire
    (emailConfig : EmailConfig) (env : SMTPConfig) (w : World) (ev : Event) :
  nth_error (snd (call emailConfig env w)) at_payload = Some ev ->
  exists content,
    body emailConfig = Some content
    /\ ev = Write Secure (payload emailConfig env w ++ CRLF)
    /\ payload emailConfig env w
       = join CRLF
           [ "From: " ++ sender_name emailConfig ++ " <"
               ++ sender_address emailConfig env ++ ">";
             "To: " ++ tpl (to emailConfig);
             "Subject: " ++ tpl (subject emailConfig);
             "Date: " ++ utc_string w;
             "Message-ID: <" ++ decimal (now w) ++ "@" ++ host env ++ ">";
             "MIME-Version: 1.0";
             (if or_false (isHtml emailConfig) then text_html else text_plain);
             eight_bit;
             "";
             content;
             "." ]
    /\ payload emailConfig env w ++ CRLF
       = join CRLF (headers emailConfig env w)
           ++ CRLF ++ CRLF ++ content ++ CRLF ++ "." ++ CRLF.
Proof.
  intros Hev.
  pose proof (event_started _ _ _ _ Hev) as Hcfg.
  apply event_of_full_run in Hev. cbn in Hev. injection Hev as <-.
  unfold configured in Hcfg. split_andb.
  destruct (truthy_some (body emailConfig)) as (content & Hbody & _ & _ & Hitem);
    [ assumption | ].
  exists content. split; [ exact Hbody | split; [ reflexivity | split ] ].
  - unfold payload, emailMessage, emailHeaders. rewrite Hitem.
    destruct (or_false (isHtml emailConfig)); reflexivity.
  - unfold payload, emailMessage. fold (headers emailConfig env w).
    rewrite join_app.
    + rewrite Hitem. cbn [join String.concat]. rewrite !append_assoc. reflexivity.
    + unfold headers, emailHeaders. discriminate.
    + discriminate.
Qed.

Lemma data_payload_on_the_wire_witness :
  payload dotted office (relay friendly 0) ++ CRLF
  = join CRLF (headers dotted office (relay friendly 0))
      ++ CRLF ++ CRLF ++ ("first line" ++ CRLF ++ ".second line")
      ++ CRLF ++ "." ++ CRLF.
Proof.
  destruct (@data_payload_on_the_wire dotted office (relay friendly 0)
              (Write Secure (payload dotted office (relay friendly 0) ++ CRLF))
              eq_refl)
    as (content & Hbody & _ & _ & Hwire).
  injection Hbody as <-. exact Hwire.
Defined.

(** C6, as stated, fails: with [isHtml] true and a subject that holds a
    line break followed by the text of the plain variant, the call succeeds
    and the header block of the payload it writes holds two Content-Type
    lines, the plain variant and the html variant. *)
Lemma injected_subject_counterexample :
  isHtml injected = Some true
  /\ fst (call injected office (relay friendly 0))
     = Normal (sent "a@b.com")
  /\ nth_error (snd (call injected office (relay friendly 0))) at_payload
     = Some (Write Secure (payload injected office (relay friendly 0) ++ CRLF))
  /\ filter (fun line => startsWith line "Content-Type:")
       (header_block (payload injected office (relay friendly 0)))
     = [ text_plain; text_html ].
Proof. repeat split; reflexivity. Qed.

(** C6 (amended). When the sender name, the sender address, the recipient,
    the subject, the date text and the host hold no carriage return, the
    header block of the payload a session writes (its lines up to the empty
    line) is made of the lines the composer built, and holds exactly one
    Content-Type line followed by exactly one Content-Transfer-Encoding
    line, the last two of the block: the html variant with 8bit when
    [isHtml] is true, the plain variant with 8bit when [isHtml] is false or
    omitted; the variant not selected is not in the header block. *)
Theorem one_content_type_pair
    (emailConfig : EmailConfig) (env : SMTPConfig) (w : World) :
  one_line_fields emailConfig env w = true ->
  let block := header_block (payload emailConfig env w) in
  let selected := if or_false (isHtml emailConfig) then text_html else text_plain in
  (forall ev,
      nth_error (snd (call emailConfig env w)) at_payload = Some ev ->
      ev = Write Secure (payload emailConfig env w ++ CRLF))
  /\ block = headers emailConfig env w
  /\ filter (fun line => startsWith line "Content-") block = [ selected; eight_bit ]
  /\ (exists fixed, block = (fixed ++ [ selected; eight_bit ])%list)
  /\ (In text_html block <-> isHtml emailConfig = Some true)
  /\ (In text_plain block <-> isHtml emailConfig <> Some true).
Proof.
  intros Hfields. cbv zeta.
  rewrite (header_block_payload emailConfig env w Hfields).
  split.
  { intros ev Hev. apply event_of_full_run in Hev. cbn in Hev.
    injection Hev as <-. reflexivity. }
  split; [ reflexivity | ].
  unfold headers, emailHeaders.
  split; [ | split; [ | split ] ].
  - destruct (or_false (isHtml emailConfig)); reflexivity.
  - eexists. destruct (or_false (isHtml emailConfig)); reflexivity.
  - destruct (isHtml emailConfig) as [[|]|]; cbn; split; intros H;
      try reflexivity; try discriminate H;
      repeat (destruct H as [H | H]; [ discriminate H | ]);
      try contradiction; auto 10.
  - destruct (isHtml emailConfig) as [[|]|]; cbn; split; intros H;
      try discriminate; try congruence;
      try (repeat (destruct H as [H | H]; [ discriminate H | ]); contradiction);
      auto 10.
Qed.

Lemma one_content_type_pair_witness :
  header_block (payload hello office (relay friendly 0))
  = [ "From: Notification <me@example.org>";
      "To: a@b.com";
      "Subject: S";
      "Date: Mon, 02 Nov 2026 12:03:00 GMT";
      "Message-ID: <0@smtp.example.org>";
      "MIME-Version: 1.0";
      text_plain;
      eight_bit ].
Proof.
  destruct (@one_content_type_pair hello office (relay friendly 0) eq_refl)
    as (_ & Hblock & _).
  rewrite Hblock. reflexivity.
Defined.

(** C7. On the success path (the message was accepted with 250), QUIT is
    written and its reply [quit], whatever its text, is read and not checked;
    then the writer is closed, the reader cancelled and the socket closed, in
    that order; and whatever the outcomes [a], [b], [c] of these three
    operations, the call resolves to [success = true]. *)
Theorem teardown_failures_ignored
    (emailConfig : EmailConfig) (env : SMTPConfig) (w : World)
    (a b c : Settled) (quit : string) :
  configured emailConfig env = true ->
  encodable env = true ->
  accepting w = true ->
  gates_pass w = true ->
  replies w 11 = Chunk quit ->
  let run := call emailConfig env (with_teardown w a b c) in
  fst run = Normal (sent (tpl (to emailConfig)))
  /\ exists before,
       snd run
       = (before ++ [ Write Secure ("QUIT" ++ CRLF); Read Secure;
                      CloseWriter; CancelReader; Close Secure ])%list.
Proof.
  intros Hcfg Henc Hnet Hgates Hquit run. subst run.
  rewrite (full_session emailConfig env (with_teardown w a b c) Hcfg Henc Hnet Hgates).
  - split; [ reflexivity | ].
    exists (firstn 27 (full_run emailConfig env w)). reflexivity.
  - cbn. rewrite Hquit. reflexivity.
Qed.

Lemma teardown_failures_ignored_witness :
  let run :=
    call hello office
      (with_teardown (relay friendly 0)
         (Rejected (Error (Some "writer is closed")))
         (Rejected (Error None))
         (Rejected (Error (Some "socket is closed")))) in
  fst run = Normal (sent (tpl (to hello)))
  /\ exists before,
       snd run
       = (before ++ [ Write Secure ("QUIT" ++ CRLF); Read Secure;
                      CloseWriter; CancelReader; Close Secure ])%list.
Proof.
  apply (@teardown_failures_ignored hello office (relay friendly 0)
           (Rejected (Error (Some "writer is closed")))
           (Rejected (Error None))
           (Rejected (Error (Some "socket is closed")))
           ("221 bye" ++ CRLF));
    reflexivity.
Defined.

(** C8, as stated, fails: with no host, no port and no sender supplied, the
    call connects to smtp.office365.com on port 587 and names the sender
    Notification, with the user name as the address. *)
Lemma defaults_counterexample :
  SMTP_HOST bare = None
  /\ SMTP_PORT bare = None
  /\ from hello = None
  /\ nth_error (snd (call hello bare (relay friendly 0))) 0
     = Some (Connect "smtp.office365.com" (Num 587) false)
  /\ nth_error (snd (call hello bare (relay friendly 0))) 2
     = Some (Connect "smtp.office365.com" (Num 587) true)
  /\ nth_error (snd (call hello bare (relay friendly 0))) at_mail_from
     = Some (Write Secure ("MAIL FROM:<me@example.org>" ++ CRLF))
  /\ nth_error (headers hello bare (relay friendly 0)) 0
     = Some "From: Notification <me@example.org>".
Proof. repeat split; reflexivity. Qed.

(** C8 (amended). On every call, each connection is opened to the supplied
    host, or to smtp.office365.com when none is supplied, and to the port
    [parseInt] reads in the supplied port, or 587 when none is supplied; the
    user name and the password go on the wire as the base64 of exactly what
    was supplied; the envelope sender and the From header carry the supplied
    sender address, or the user name when none is supplied, and the From
    header carries the supplied display name, or Notification. *)
Theorem values_on_the_wire
    (emailConfig : EmailConfig) (env : SMTPConfig) (w : World) :
  let tr := snd (call emailConfig env w) in
  let address :=
    supplied_or (optional (from emailConfig) email)
      (supplied_or (SMTP_USERNAME env) "") in
  let display := supplied_or (optional (from emailConfig) name) "Notification" in
  (forall hostname number starttls,
      In (Connect hostname number starttls) tr ->
      hostname = supplied_or (SMTP_HOST env) "smtp.office365.com"
      /\ number = match SMTP_PORT env with
                  | Some (String c s) => parseInt (String c s)
                  | _ => Num 587
                  end)
  /\ (forall ev, nth_error tr at_username = Some ev ->
        exists user encoded,
          SMTP_USERNAME env = Some user /\ btoa user = Some encoded
          /\ ev = Write Secure (encoded ++ CRLF))
  /\ (forall ev, nth_error tr at_password = Some ev ->
        exists password encoded,
          SMTP_PASSWORD env = Some password /\ btoa password = Some encoded
          /\ ev = Write Secure (encoded ++ CRLF))
  /\ (forall ev, nth_error tr at_mail_from = Some ev ->
        ev = Write Secure (("MAIL FROM:<" ++ address ++ ">") ++ CRLF))
  /\ (forall ev, nth_error tr at_payload = Some ev ->
        ev = Write Secure (payload emailConfig env w ++ CRLF)
        /\ nth_error (headers emailConfig env w) 0
           = Some ("From: " ++ display ++ " <" ++ address ++ ">")).
Proof.
  cbv zeta.
  assert (Hdefault : forall x d, supplied_or x d = or_else x d)
    by (intros [[|c s]|] d; reflexivity).
  rewrite !Hdefault.
  split; [ | split; [ | split; [ | split ] ] ].
  - intros hostname number starttls Hin.
    apply In_nth_error in Hin as [n Hn].
    apply event_of_full_run, nth_error_In in Hn.
    assert (Hport : match SMTP_PORT env with
                    | Some (String c s) => parseInt (String c s)
                    | _ => Num 587
                    end = port env)
      by (unfold port; destruct (SMTP_PORT env) as [[|c s]|]; reflexivity).
    rewrite Hport. unfold full_run in Hn. cbn [In] in Hn.
    repeat (destruct Hn as [Hn | Hn]; [ try discriminate Hn | ]);
      try contradiction.
    + injection Hn as <- <- <-. split; reflexivity.
    + injection Hn as <- <- <-. split; reflexivity.
  - intros ev Hev.
    pose proof (event_started _ _ _ _ Hev) as Hcfg.
    unfold configured in Hcfg. split_andb.
    destruct (truthy_some (SMTP_USERNAME env)) as (user & Huser & Hor & _);
      [ assumption | ].
    destruct (btoa (username env)) as [encoded|] eqn:Hbtoa.
    + exists user, encoded. split; [ exact Huser | ].
      unfold username in Hbtoa. rewrite Hor in Hbtoa. split; [ exact Hbtoa | ].
      apply event_of_full_run in Hev. cbn in Hev. injection Hev as <-.
      unfold b64, username. rewrite Hor, Hbtoa. reflexivity.
    + pose proof (unencodable_username emailConfig env w Hbtoa) as Hlen.
      assert (at_username < length (snd (call emailConfig env w)))
        by (apply nth_error_Some; congruence).
      lia.
  - intros ev Hev.
    pose proof (event_started _ _ _ _ Hev) as Hcfg.
    unfold configured in Hcfg. split_andb.
    destruct (truthy_some (SMTP_PASSWORD env)) as (password & Hpassword & _ & Htpl & _);
      [ assumption | ].
    destruct (btoa (tpl (SMTP_PASSWORD env))) as [encoded|] eqn:Hbtoa.
    + exists password, encoded. split; [ exact Hpassword | ].
      split; [ rewrite <- Htpl; exact Hbtoa | ].
      apply event_of_full_run in Hev. cbn in Hev. injection Hev as <-.
      unfold b64. rewrite Hbtoa. reflexivity.
    + pose proof (unencodable_password emailConfig env w Hbtoa) as Hlen.
      assert (at_password < length (snd (call emailConfig env w)))
        by (apply nth_error_Some; congruence).
      lia.
  - intros ev Hev. apply event_of_full_run in Hev. cbn in Hev.
    injection Hev as <-. reflexivity.
  - intros ev Hev. apply event_of_full_run in Hev. cbn in Hev.
    injection Hev as <-. split; reflexivity.
Qed.

Lemma values_on_the_wire_witness :
  (exists user encoded,
     SMTP_USERNAME office = Some user /\ btoa user = Some encoded
     /\ Write Secure ("bWVAZXhhbXBsZS5vcmc=" ++ CRLF) = Write Secure (encoded ++ CRLF))
  /\ (exists password encoded,
        SMTP_PASSWORD office = Some password /\ btoa password = Some encoded
        /\ Write Secure ("c2VjcmV0" ++ CRLF) = Write Secure (encoded ++ CRLF)).
Proof.
  destruct (values_on_the_wire hello office (relay friendly 0))
    as (_ & Huser & Hpassword & _).
  split.
  - apply Huser. reflexivity.
  - apply Hpassword. reflexivity.
Defined.

(** C9, as stated, fails: two calls with the same content, each with its own
    relay, that read the same millisecond on the clock send the same
    Message-ID. *)
Lemma same_millisecond_counterexample :
  let first := call hello office (relay friendly 1793620980000) in
  let second := call hello office (relay terse 1793620980000) in
  fst first = Normal (sent "a@b.com")
  /\ fst second = Normal (sent "a@b.com")
  /\ nth_error (snd first) at_payload
     = Some (Write Secure (payload hello office (relay friendly 1793620980000) ++ CRLF))
  /\ nth_error (snd second) at_payload
     = Some (Write Secure (payload hello office (relay terse 1793620980000) ++ CRLF))
  /\ nth_error (headers hello office (relay friendly 1793620980000)) 4
     = Some "Message-ID: <1793620980000@smtp.example.org>"
  /\ nth_error (headers hello office (relay terse 1793620980000)) 4
     = Some "Message-ID: <1793620980000@smtp.example.org>".
Proof. repeat split; reflexivity. Qed.

(** C9 (amended). Two calls with the same content, each on a network that
    works and with a relay whose replies pass, are two complete send attempts,
    each with its own probe, connection, session and payload, and both
    succeed: nothing is remembered from one call to the next.  The fifth
    header line of each payload is its Message-ID, made of the millisecond
    clock and the host; the two Message-IDs differ exactly when the two calls
    read different milliseconds. *)
Theorem message_ids_follow_the_clock
    (emailConfig : EmailConfig) (env : SMTPConfig) (w1 w2 : World) :
  configured emailConfig env = true ->
  encodable env = true ->
  accepting w1 = true -> gates_pass w1 = true -> is_chunk (replies w1 11) = true ->
  accepting w2 = true -> gates_pass w2 = true -> is_chunk (replies w2 11) = true ->
  call emailConfig env w1
  = (Normal (sent (tpl (to emailConfig))), full_run emailConfig env w1)
  /\ call emailConfig env w2
     = (Normal (sent (tpl (to emailConfig))), full_run emailConfig env w2)
  /\ nth_error (headers emailConfig env w1) 4 = Some (message_id env w1)
  /\ nth_error (headers emailConfig env w2) 4 = Some (message_id env w2)
  /\ (message_id env w1 <> message_id env w2 <-> now w1 <> now w2).
Proof.
  intros Hcfg Henc Hnet1 Hgates1 Hquit1 Hnet2 Hgates2 Hquit2.
  split; [ apply full_session; assumption | ].
  split; [ apply full_session; assumption | ].
  split; [ reflexivity | split; [ reflexivity | ] ].
  unfold message_id. split; intros Hdiff Heq; apply Hdiff.
  - rewrite Heq. reflexivity.
  - apply append_cancel_l in Heq. apply append_cancel_r in Heq.
    exact (decimal_inj _ _ Heq).
Qed.

Lemma message_ids_follow_the_clock_witness :
  message_id office (relay friendly 1793620980000)
  <> message_id office (relay terse 1793620980001).
Proof.
  apply (message_ids_follow_the_clock hello office
           (relay friendly 1793620980000) (relay terse 1793620980001));
    try reflexivity.
  cbn. discriminate.
Defined.

(** C10. Every call resolves, never rejects, and what it resolves to has
    exactly one of the two optional fields: either [success] is true, a
    [message] is present and there is no [error], or [success] is false, an
    [error] is present and there is no [message]. *)
Theorem result_has_one_text (emailConfig : EmailConfig) (env : SMTPConfig) (w : World) :
  exists r text,
    fst (call emailConfig env w) = Normal r
    /\ (r = mkResult true (Some text) None \/ r = mkResult false None (Some text)).
Proof.
  unfold call, sendEmail, try_catch.
  destruct (session emailConfig env w start) as [[r|e] st] eqn:Hsession.
  - apply session_returns in Hsession. subst r.
    eexists; eexists. split; [ reflexivity | left; reflexivity ].
  - eexists; eexists. split; [ reflexivity | right; reflexivity ].
Qed.

(* ================================================================== *)
(** * Properties of the stops of a run *)
(* ================================================================== *)

(** The hypotheses of a run, taken apart. *)
Ltac unpack_configured H :=
  unfold configured in H; rewrite <- truthy_username in H; split_andb.

Ltac unpack_answers :=
  split_andb;
  repeat match goal with
         | R : resolved _ = true |- _ => apply resolved_true in R
         | P : passes _ _ = true |- _ =>
             apply passes_true in P; destruct P as (? & ? & ?)
         | B : accepted_by_btoa _ = true |- _ =>
             apply accepted_by_btoa_true in B; destruct B as (? & B)
         end.

Lemma or_else_nonempty (x : option string) (d : string) :
  d <> "" -> or_else x d <> "".
Proof. destruct x as [[|c s]|]; cbn; intros H; try exact H; discriminate. Qed.

(** Every run, whatever the network answers: it succeeds having run to its
    end, or it fails with a text and without any closing operation; and each
    of its stops is [explained]. *)
Lemma run_end (emailConfig : EmailConfig) (env : SMTPConfig) (w : World)
    (c : Completion Result) (st : Session) :
  sendEmail emailConfig env w start = (c, st) ->
  ((c = Normal (sent (tpl (to emailConfig)))
    /\ trace st = full_run emailConfig env w)
   \/ (exists text,
         c = Normal (failure text) /\ text <> ""
         /\ existsb is_teardown (trace st) = false))
  /\ explained w c 0 0 (trace st).
Proof.
  intros H. unfold_run H.
  repeat settle H.
  all: injection H as <- <-.
  all: split;
    [ first
        [ left; split;
          [ reflexivity
          | unfold full_run, payload, host, port, username, sender_address,
              sender_name, b64;
            rewrite_btoa; reflexivity ]
        | right; eexists; split;
          [ reflexivity
          | split;
            [ first [ discriminate | apply or_else_nonempty; discriminate ]
            | reflexivity ] ] ]
    | cbn [trace]; walk_stops ].
Qed.

Lemma count_writes_cons (ev : Event) (tr : list Event) :
  count_writes (ev :: tr) = (if is_write ev then S (count_writes tr) else count_writes tr).
Proof. unfold count_writes. cbn [filter]. destruct (is_write ev); reflexivity. Qed.

(** An operation whose answer stops the call is its last one. *)
Lemma explained_final (w : World) (c : Completion Result) nr nw tr :
  explained w c nr nw tr ->
  forall pre ev post text,
    tr = (pre ++ ev :: post)%list ->
    stop_text w (nr + count_reads pre) (nw + count_writes pre) ev = Some text ->
    post = [] /\ c = Normal (failure text).
Proof.
  induction 1 as [ nr nw | nr nw ev0 tr Hgo Htr IH | nr nw ev0 text0 Hstop Hc ];
    intros pre ev post text Hsplit Htext.
  - destruct pre; discriminate Hsplit.
  - destruct pre as [|ev1 pre]; cbn in Hsplit; injection Hsplit as <- ->.
    + cbn in Htext. rewrite !Nat.add_0_r in Htext. congruence.
    + apply (IH pre ev post text eq_refl).
      rewrite count_reads_cons, count_writes_cons in Htext.
      unfold after_read, after_write.
      destruct (is_read ev0), (is_write ev0);
        rewrite <- ?plus_n_Sm in Htext; exact Htext.
  - destruct pre as [|ev1 pre]; cbn in Hsplit.
    + injection Hsplit as <- <-. cbn in Htext. rewrite !Nat.add_0_r in Htext.
      split; [ reflexivity | congruence ].
    + injection Hsplit as _ Hsplit. destruct pre; discriminate Hsplit.
Qed.

(** The [k]-th read of a run that made more than [k] reads. *)
Lemma kth_read (tr : list Event) :
  forall k, k < count_reads tr ->
  exists pre conn post,
    tr = (pre ++ Read conn :: post)%list /\ count_reads pre = k.
Proof.
  induction tr as [|ev tr IH]; intros k Hk; [ cbn in Hk; lia | ].
  rewrite count_reads_cons in Hk.
  destruct ev as [h p s|c0|conn|c0 b| | | | | ]; cbn [is_read] in Hk;
    try (destruct (IH k Hk) as (pre & conn' & post & -> & Hpre);
         eexists (_ :: pre), conn', post; split; [ reflexivity | exact Hpre ]).
  destruct k as [|k].
  - exists [], conn, tr. split; reflexivity.
  - destruct (IH k ltac:(lia)) as (pre & conn' & post & -> & Hpre).
    exists (Read conn :: pre), conn', post. split; [ reflexivity | ].
    rewrite count_reads_cons. cbn. lia.
Qed.

Lemma kth_write (tr : list Event) :
  forall k, k < count_writes tr ->
  exists pre conn bytes post,
    tr = (pre ++ Write conn bytes :: post)%list /\ count_writes pre = k.
Proof.
  induction tr as [|ev tr IH]; intros k Hk; [ cbn in Hk; lia | ].
  rewrite count_writes_cons in Hk.
  destruct ev as [h p s|c0|c0|conn bytes| | | | | ]; cbn [is_write] in Hk;
    try (destruct (IH k Hk) as (pre & conn' & bytes' & post & -> & Hpre);
         eexists (_ :: pre), conn', bytes', post;
         split; [ reflexivity | exact Hpre ]).
  destruct k as [|k].
  - exists [], conn, bytes, tr. split; reflexivity.
  - destruct (IH k ltac:(lia)) as (pre & conn' & bytes' & post & -> & Hpre).
    exists (Write conn bytes :: pre), conn', bytes', post. split; [ reflexivity | ].
    rewrite count_writes_cons. cbn. lia.
Qed.

Lemma count_reads_app (a b : list Event) :
  count_reads (a ++ b) = count_reads a + count_reads b.
Proof. unfold count_reads. rewrite filter_app, length_app. reflexivity. Qed.

Lemma count_writes_app (a b : list Event) :
  count_writes (a ++ b) = count_writes a + count_writes b.
Proof. unfold count_writes. rewrite filter_app, length_app. reflexivity. Qed.

Lemma reads_on_split (pre : list Event) :
  forall k conn post,
    reads_on k (pre ++ Read conn :: post) = true ->
    conn = read_transport (k + count_reads pre).
Proof.
  induction pre as [|ev pre IH]; intros k conn post H.
  - cbn in H. rewrite Nat.add_0_r.
    apply andb_true_iff in H as [H _].
    destruct conn, (read_transport k); try discriminate H; reflexivity.
  - rewrite count_reads_cons.
    destruct ev as [h p s|c0|c0|c0 b| | | | | ]; cbn [is_read app reads_on] in *;
      try (apply IH in H; exact H).
    apply andb_true_iff in H as [_ H]. apply IH in H.
    rewrite <- plus_n_Sm. exact H.
Qed.

Lemma full_run_reads_on emailConfig env w :
  reads_on 0 (full_run emailConfig env w) = true.
Proof. reflexivity. Qed.

(** The parts of a run: what it resolves to, its events, and the lemmas
    about them. *)
Lemma run_parts (emailConfig : EmailConfig) (env : SMTPConfig) (w : World) :
  exists c tr rest,
    call emailConfig env w = (c, tr)
    /\ full_run emailConfig env w = (tr ++ rest)%list
    /\ gated w c gates 0 tr
    /\ explained w c 0 0 tr
    /\ ((c = Normal (sent (tpl (to emailConfig)))
         /\ tr = full_run emailConfig env w)
        \/ (exists text,
              c = Normal (failure text) /\ text <> ""
              /\ existsb is_teardown tr = false)).
Proof.
  destruct (call_run emailConfig env w) as (c & st & Hrun & Hcall).
  destruct (run_shape _ _ _ Hrun) as [[rest Hrest] Hgated].
  destruct (run_end _ _ _ Hrun) as [Hend Hexplained].
  exists c, (trace st), rest. repeat split; assumption.
Qed.

(** X1. When the [k]-th read of a call (counted from 0) finds the stream
    ended, that read is the last operation of the call, and the call resolves
    to [success = false] with the error [No response from server] when the
    read was made on the plaintext transport (the first three reads) and
    [No secure response from server] when it was made on the secure one. *)
Theorem ended_stream_fails
    (emailConfig : EmailConfig) (env : SMTPConfig) (w : World) (k : nat) :
  k < count_reads (snd (call emailConfig env w)) ->
  replies w k = EndOfStream ->
  fst (call emailConfig env w)
  = Normal (mkResult false None (Some (no_response (read_transport k))))
  /\ exists before,
       snd (call emailConfig env w)
       = (before ++ [Read (read_transport k)])%list
       /\ count_reads before = k.
Proof.
  intros Hreached Hended.
  destruct (run_parts emailConfig env w)
    as (c & tr & rest & Hcall & Hrest & _ & Hexplained & _).
  rewrite Hcall in *. cbn [fst snd] in *.
  destruct (kth_read tr Hreached) as (pre & conn & post & -> & Hpre).
  destruct (explained_final Hexplained pre (Read conn) post
              (text := no_response conn) eq_refl) as [-> ->].
  { cbn. rewrite Hpre, Hended. reflexivity. }
  assert (conn = read_transport k) as ->.
  { rewrite <- Hpre.
    apply (@reads_on_split pre 0 conn ([] ++ rest)%list).
    rewrite app_comm_cons, app_assoc, <- Hrest. apply full_run_reads_on. }
  split; [ reflexivity | ].
  exists pre. split; [ reflexivity | exact Hpre ].
Qed.

Lemma ended_stream_fails_witness :
  fst (call hello office (relay (firstn 4 friendly) 0))
  = Normal (mkResult false None (Some "No secure response from server"))
  /\ exists before,
       snd (call hello office (relay (firstn 4 friendly) 0))
       = (before ++ [Read Secure])%list
       /\ count_reads before = 4.
Proof.
  apply (@ended_stream_fails hello office (relay (firstn 4 friendly) 0) 4).
  - vm_compute. lia.
  - reflexivity.
Defined.

(** X2. When the [k]-th read of a call is rejected with an error, that
    read is the last operation of the call, and the call resolves to
    [success = false] with the message of the error, or with
    [Unknown error occurred] when the error has no message or an empty one. *)
Theorem rejected_read_fails
    (emailConfig : EmailConfig) (env : SMTPConfig) (w : World) (k : nat)
    (err : Exception) :
  k < count_reads (snd (call emailConfig env w)) ->
  replies w k = ReadFailed err ->
  fst (call emailConfig env w)
  = Normal (mkResult false None (Some (thrown_text err)))
  /\ exists before,
       snd (call emailConfig env w)
       = (before ++ [Read (read_transport k)])%list
       /\ count_reads before = k.
Proof.
  intros Hreached Hfailed.
  destruct (run_parts emailConfig env w)
    as (c & tr & rest & Hcall & Hrest & _ & Hexplained & _).
  rewrite Hcall in *. cbn [fst snd] in *.
  destruct (kth_read tr Hreached) as (pre & conn & post & -> & Hpre).
  destruct (explained_final Hexplained pre (Read conn) post
              (text := thrown_text err) eq_refl) as [-> ->].
  { cbn. rewrite Hpre, Hfailed. reflexivity. }
  assert (conn = read_transport k) as ->.
  { rewrite <- Hpre.
    apply (@reads_on_split pre 0 conn ([] ++ rest)%list).
    rewrite app_comm_cons, app_assoc, <- Hrest. apply full_run_reads_on. }
  split; [ reflexivity | ].
  exists pre. split; [ reflexivity | exact Hpre ].
Qed.

Lemma rejected_read_fails_witness :
  fst (call hello office (with_reply (relay friendly 0) 1 (ReadFailed refused)))
  = Normal (mkResult false None (Some "connection refused"))
  /\ exists before,
       snd (call hello office
              (with_reply (relay friendly 0) 1 (ReadFailed refused)))
       = (before ++ [Read Plain])%list
       /\ count_reads before = 1.
Proof.
  apply (@rejected_read_fails hello office
           (with_reply (relay friendly 0) 1 (ReadFailed refused)) 1 refused).
  - vm_compute. lia.
  - reflexivity.
Defined.

(** X3. When the [k]-th write of a call is rejected with an error, that
    write is the last operation of the call (the reply to the command is
    never read), and the call resolves to [success = false] with the message
    of the error, or with [Unknown error occurred] when it has none. *)
Theorem rejected_write_fails
    (emailConfig : EmailConfig) (env : SMTPConfig) (w : World) (k : nat)
    (err : Exception) :
  k < count_writes (snd (call emailConfig env w)) ->
  written w k = Rejected err ->
  fst (call emailConfig env w)
  = Normal (mkResult false None (Some (thrown_text err)))
  /\ exists before conn bytes,
       snd (call emailConfig env w) = (before ++ [Write conn bytes])%list
       /\ count_writes before = k.
Proof.
  intros Hreached Hrejected.
  destruct (run_parts emailConfig env w)
    as (c & tr & rest & Hcall & Hrest & _ & Hexplained & _).
  rewrite Hcall in *. cbn [fst snd] in *.
  destruct (kth_write tr Hreached) as (pre & conn & bytes & post & -> & Hpre).
  destruct (explained_final Hexplained pre (Write conn bytes) post
              (text := thrown_text err) eq_refl) as [-> ->].
  { cbn. rewrite Hpre, Hrejected. reflexivity. }
  split; [ reflexivity | ].
  exists pre, conn, bytes. split; [ reflexivity | exact Hpre ].
Qed.

Lemma rejected_write_fails_witness :
  fst (call hello office (with_write_rejected (relay friendly 0) 2 refused))
  = Normal (mkResult false None (Some "connection refused"))
  /\ exists before conn bytes,
       snd (call hello office (with_write_rejected (relay friendly 0) 2 refused))
       = (before ++ [Write conn bytes])%list
       /\ count_writes before = 2.
Proof.
  apply (@rejected_write_fails hello office
           (with_write_rejected (relay friendly 0) 2 refused) 2 refused).
  - vm_compute. lia.
  - reflexivity.
Defined.

(** X4. When the arguments pass the checks and the probe connection does
    not open, the call resolves to [success = false] with the error
    [SMTP server unreachable: ] followed by the message of the rejection (the
    text [undefined] when it has none), and the opening of the probe is the
    only operation: the session connection is never opened. *)
Theorem probe_open_failure
    (emailConfig : EmailConfig) (env : SMTPConfig) (w : World) (err : Exception) :
  configured emailConfig env = true ->
  opened w Probe = Rejected err ->
  call emailConfig env w
  = (Normal (mkResult false None
               (Some ("SMTP server unreachable: " ++ tpl (message_of err)))),
     [ Connect (host env) (port env) false ]).
Proof.
  intros Hcfg Hprobe. unpack_configured Hcfg.
  destruct (call_run emailConfig env w) as (c & st & Hrun & ->).
  unfold_run Hrun. repeat settle Hrun.
  injection Hrun as <- <-. destruct err as [msg]. reflexivity.
Qed.

Lemma probe_open_failure_witness :
  call hello office (down (Some "timed out"))
  = (Normal (mkResult false None (Some "SMTP server unreachable: timed out")),
     [ Connect "smtp.example.org" (Num 587) false ]).
Proof.
  apply (@probe_open_failure hello office (down (Some "timed out"))
           (Error (Some "timed out")));
    reflexivity.
Defined.

(** X5. When the probe connection opens and its [close()] is rejected,
    the call reports [SMTP server unreachable: ] with the message of the
    rejection, although the server was reached, and stops there: the session
    connection is never opened. *)
Theorem probe_close_failure
    (emailConfig : EmailConfig) (env : SMTPConfig) (w : World) (err : Exception) :
  configured emailConfig env = true ->
  opened w Probe = Resolved ->
  closed w Probe = Rejected err ->
  call emailConfig env w
  = (Normal (mkResult false None
               (Some ("SMTP server unreachable: " ++ tpl (message_of err)))),
     [ Connect (host env) (port env) false; Close Probe ]).
Proof.
  intros Hcfg Hprobe Hclose. unpack_configured Hcfg.
  destruct (call_run emailConfig env w) as (c & st & Hrun & ->).
  unfold_run Hrun. repeat settle Hrun.
  injection Hrun as <- <-. destruct err as [msg]. reflexivity.
Qed.

Lemma probe_close_failure_witness :
  call hello office (with_sockets (relay friendly 0) all_fine (all_but Probe))
  = (Normal (mkResult false None
               (Some "SMTP server unreachable: connection refused")),
     [ Connect "smtp.example.org" (Num 587) false; Close Probe ]).
Proof.
  apply (@probe_close_failure hello office
           (with_sockets (relay friendly 0) all_fine (all_but Probe)) refused);
    reflexivity.
Defined.

(** X6. When the probe opens and closes and the session connection then
    does not open, the call resolves to [success = false] with the message of
    the rejection, without the prefix of the probe, after exactly three
    operations: nothing is read or written. *)
Theorem session_connect_failure
    (emailConfig : EmailConfig) (env : SMTPConfig) (w : World) (err : Exception) :
  configured emailConfig env = true ->
  opened w Probe = Resolved ->
  closed w Probe = Resolved ->
  opened w Plain = Rejected err ->
  call emailConfig env w
  = (Normal (mkResult false None (Some (thrown_text err))),
     [ Connect (host env) (port env) false; Close Probe;
       Connect (host env) (port env) true ]).
Proof.
  intros Hcfg Hprobe Hclose Hplain. unpack_configured Hcfg.
  destruct (call_run emailConfig env w) as (c & st & Hrun & ->).
  unfold_run Hrun. repeat settle Hrun.
  injection Hrun as <- <-. destruct err as [msg]. reflexivity.
Qed.

Lemma session_connect_failure_witness :
  call hello office (with_sockets (relay friendly 0) (all_but Plain) all_fine)
  = (Normal (mkResult false None (Some "connection refused")),
     [ Connect "smtp.example.org" (Num 587) false; Close Probe;
       Connect "smtp.example.org" (Num 587) true ]).
Proof.
  apply (@session_connect_failure hello office
           (with_sockets (relay friendly 0) (all_but Plain) all_fine) refused);
    reflexivity.
Defined.

(** X7. When the plaintext phase goes through (probe, connection,
    greeting, EHLO and STARTTLS with their replies accepted) and the secure
    transport is not established, the call resolves to [success = false] with
    the message of the rejection; its operations are the first eleven of the
    fixed order, ending with [startTls()], and nothing is read from or written
    to the secure transport. *)
Theorem upgrade_failure
    (emailConfig : EmailConfig) (env : SMTPConfig) (w : World) (err : Exception) :
  configured emailConfig env = true ->
  plain_phase_passes w = true ->
  opened w Secure = Rejected err ->
  call emailConfig env w
  = (Normal (mkResult false None (Some (thrown_text err))),
     firstn 11 (full_run emailConfig env w))
  /\ forall ev, In ev (snd (call emailConfig env w)) ->
       match ev with
       | Read Secure => False
       | Write Secure _ => False
       | _ => True
       end.
Proof.
  intros Hcfg Hplain Hsecure. unpack_configured Hcfg.
  unfold plain_phase_passes, SMTP_READY, SMTP_OK in Hplain. unpack_answers.
  destruct (call_run emailConfig env w) as (c & st & Hrun & Hcall).
  unfold_run Hrun. repeat settle Hrun.
  all: injection Hrun as <- <-; rewrite Hcall; destruct err as [msg].
  all: split; [ reflexivity | ].
  all: cbn [snd trace In]; intros ev Hin;
    repeat (destruct Hin as [<- | Hin]; [ exact I | ]); contradiction.
Qed.

Lemma upgrade_failure_witness :
  fst (call hello office
         (with_sockets (relay friendly 0) (all_but Secure) all_fine))
  = Normal (mkResult false None (Some "connection refused"))
  /\ length (snd (call hello office
                    (with_sockets (relay friendly 0) (all_but Secure) all_fine)))
     = 11.
Proof.
  destruct (@upgrade_failure hello office
              (with_sockets (relay friendly 0) (all_but Secure) all_fine) refused)
    as [Hcall _]; [ reflexivity | reflexivity | reflexivity | ].
  rewrite Hcall. split; reflexivity.
Defined.

(** X8. When the relay has accepted the message with 250 and the stream
    ends before a reply to QUIT, the call resolves to [success = false] with
    [No secure response from server], although the message was accepted, and
    stops at the read after QUIT: the writer, the reader and the socket are
    not closed. *)
Theorem quit_without_reply_fails
    (emailConfig : EmailConfig) (env : SMTPConfig) (w : World) :
  configured emailConfig env = true ->
  encodable env = true ->
  accepting w = true ->
  gates_pass w = true ->
  replies w 11 = EndOfStream ->
  call emailConfig env w
  = (Normal (mkResult false None (Some "No secure response from server")),
     firstn 29 (full_run emailConfig env w)).
Proof.
  intros Hcfg Henc Hnet Hgates Hquit. unpack_configured Hcfg.
  unfold encodable, username in Henc.
  unfold accepting in Hnet. cbn [forallb seq] in Hnet.
  unfold gates_pass in Hgates. cbn [forallb seq combine gates fst snd] in Hgates.
  unpack_answers.
  destruct (call_run emailConfig env w) as (c & st & Hrun & ->).
  unfold_run Hrun. repeat settle Hrun.
  all: injection Hrun as <- <-.
  all: unfold full_run, payload, host, port, username, sender_address,
         sender_name, b64.
  all: rewrite_btoa; reflexivity.
Qed.

Lemma quit_without_reply_fails_witness :
  fst (call hello office (relay (firstn 11 friendly) 0))
  = Normal (mkResult false None (Some "No secure response from server"))
  /\ length (snd (call hello office (relay (firstn 11 friendly) 0))) = 29.
Proof.
  rewrite (@quit_without_reply_fails hello office (relay (firstn 11 friendly) 0));
    try reflexivity.
  split; reflexivity.
Defined.

(* ================================================================== *)
(** * What a run does and never does *)
(* ================================================================== *)

Lemma gate_passed (emailConfig : EmailConfig) (env : SMTPConfig) (w : World)
    (c : Completion Result) (k : nat) (code label : string) :
  gated w c gates 0 (full_run emailConfig env w) ->
  nth_error gates k = Some (code, label) ->
  passes code (replies w k) = true.
Proof.
  intros Hgated Hgate.
  destruct (passes code (replies w k)) eqn:Hpasses; [ reflexivity | ].
  assert (Hk : k < length gates) by (apply nth_error_Some; congruence).
  cbn in Hk.
  destruct (@gated_stop w c gates 0 _ Hgated k code label Hgate) as (Hcount & _).
  - cbn. lia.
  - exact Hpasses.
  - cbn in Hcount. lia.
Qed.

Lemma successful_call (emailConfig : EmailConfig) (env : SMTPConfig) (w : World)
    (r : Result) :
  fst (call emailConfig env w) = Normal r ->
  success r = true ->
  snd (call emailConfig env w) = full_run emailConfig env w
  /\ gates_pass w = true
  /\ r = sent (tpl (to emailConfig)).
Proof.
  intros Hr Hsuccess.
  destruct (run_parts emailConfig env w)
    as (c & tr & rest & Hcall & _ & Hgated & _ & [[-> ->] | (text & -> & _)]).
  - rewrite Hcall in *. cbn [fst snd] in *. injection Hr as <-.
    split; [ reflexivity | split; [ | reflexivity ] ].
    unfold gates_pass. cbn [forallb seq combine gates fst snd].
    repeat (apply andb_true_intro; split); try reflexivity.
    all: eapply gate_passed; [ exact Hgated | reflexivity ].
  - rewrite Hcall in Hr. cbn in Hr. injection Hr as <-. discriminate Hsuccess.
Qed.

(** X9. A call resolves with [success = true] only when it ran the
    whole session: its operations are exactly the fixed order to its end, the
    reply at each of the eleven gated steps passed its gate (so the relay
    answered 250 to the payload), and the message is
    [Email sent successfully to ] followed by the recipient. *)
Theorem success_means_accepted
    (emailConfig : EmailConfig) (env : SMTPConfig) (w : World) (r : Result) :
  fst (call emailConfig env w) = Normal r ->
  success r = true ->
  snd (call emailConfig env w) = full_run emailConfig env w
  /\ gates_pass w = true
  /\ r = sent (tpl (to emailConfig)).
Proof.
  exact (@successful_call emailConfig env w r).
Qed.

Lemma success_means_accepted_witness :
  snd (call hello office (relay friendly 0))
  = full_run hello office (relay friendly 0)
  /\ gates_pass (relay friendly 0) = true
  /\ sent "a@b.com" = sent (tpl (to hello)).
Proof.
  apply (@success_means_accepted hello office (relay friendly 0) (sent "a@b.com"));
    reflexivity.
Defined.

Lemma existsb_false_In {A} (f : A -> bool) (l : list A) (x : A) :
  existsb f l = false -> In x l -> f x = false.
Proof.
  intros Hnone Hin. destruct (f x) eqn:Hx; [ | reflexivity ].
  assert (existsb f l = true) by (apply existsb_exists; exists x; split; assumption).
  congruence.
Qed.

(** X10. A call that resolves with [success = false] carries an error
    text that is not empty, and it has not closed the secure writer,
    cancelled the secure reader or closed the session socket: the only
    [close()] it can have made is that of the probe. *)
Theorem failure_closes_nothing
    (emailConfig : EmailConfig) (env : SMTPConfig) (w : World) (r : Result) :
  fst (call emailConfig env w) = Normal r ->
  success r = false ->
  (exists text, r = mkResult false None (Some text) /\ text <> "")
  /\ forall ev, In ev (snd (call emailConfig env w)) ->
       match ev with
       | Close Probe => True
       | Close _ => False
       | CloseWriter => False
       | CancelReader => False
       | _ => True
       end.
Proof.
  intros Hr Hfailure.
  destruct (run_parts emailConfig env w)
    as (c & tr & rest & Hcall & Hrest & _ & _ & [[-> ->] | (text & -> & Htext & Hopen)]);
    rewrite Hcall in *; cbn [fst snd] in *; injection Hr as <-;
    [ discriminate Hfailure | ].
  split; [ exists text; split; [ reflexivity | exact Htext ] | ].
  intros ev Hin.
  pose proof (existsb_false_In is_teardown tr ev Hopen Hin) as Hev.
  assert (Hfull : In ev (full_run emailConfig env w))
    by (rewrite Hrest; apply in_or_app; left; exact Hin).
  destruct ev as [h p s|[| |]|c0|c0 b| | | | | ]; try exact I; try discriminate Hev.
  unfold full_run in Hfull. cbn [In] in Hfull.
  repeat (destruct Hfull as [Hfull | Hfull]; [ discriminate Hfull | ]).
  contradiction.
Qed.

Lemma failure_closes_nothing_witness :
  (exists text,
     failure "EHLO failed: 500 error" = mkResult false None (Some text)
     /\ text <> "")
  /\ forall ev, In ev (snd (call hello office (relay refusing 0))) ->
       match ev with
       | Close Probe => True
       | Close _ => False
       | CloseWriter => False
       | CancelReader => False
       | _ => True
       end.
Proof.
  apply (@failure_closes_nothing hello office (relay refusing 0)
           (failure "EHLO failed: 500 error"));
    reflexivity.
Defined.

Lemma filter_prefix {A} (f : A -> bool) (tr rest whole : list A) :
  whole = (tr ++ rest)%list ->
  exists n, filter f tr = firstn n (filter f whole).
Proof.
  intros ->. rewrite filter_app. exists (length (filter f tr)).
  rewrite firstn_app, Nat.sub_diag, firstn_all. cbn. rewrite app_nil_r. reflexivity.
Qed.

(** X11. A call opens at most two connections, both to the same host and
    port: the probe, without STARTTLS, and after it the session connection,
    with STARTTLS. *)
Theorem at_most_two_connections
    (emailConfig : EmailConfig) (env : SMTPConfig) (w : World) :
  exists n,
    filter is_connect (snd (call emailConfig env w))
    = firstn n [ Connect (host env) (port env) false;
                 Connect (host env) (port env) true ].
Proof.
  destruct (run_parts emailConfig env w)
    as (c & tr & rest & Hcall & Hrest & _).
  rewrite Hcall. cbn [snd].
  exact (filter_prefix is_connect tr rest Hrest).
Qed.

Lemma lock_step_prefix (tr rest : list Event) :
  lock_step (tr ++ rest) = true -> lock_step tr = true.
Proof.
  induction tr as [|ev tr IH]; intros H; [ reflexivity | ].
  destruct ev as [h p s|c0|c0|c0 b| | | | | ]; cbn [app lock_step] in *;
    try (apply IH; exact H).
  apply andb_true_iff in H as [Hnext H]. rewrite (IH H), andb_true_r.
  destruct tr as [|ev tr]; [ reflexivity | exact Hnext ].
Qed.

(** X12. In every call a write is followed by a read or is the last
    operation: no command is written before the reply to the one before it
    was read; and a call makes at most eleven writes and twelve reads. *)
Theorem commands_wait_for_replies
    (emailConfig : EmailConfig) (env : SMTPConfig) (w : World) :
  lock_step (snd (call emailConfig env w)) = true
  /\ count_writes (snd (call emailConfig env w)) <= 11
  /\ count_reads (snd (call emailConfig env w)) <= 12.
Proof.
  destruct (run_parts emailConfig env w)
    as (c & tr & rest & Hcall & Hrest & _).
  rewrite Hcall. cbn [snd].
  split; [ | split ].
  - apply lock_step_prefix with (rest := rest). rewrite <- Hrest. reflexivity.
  - apply (f_equal count_writes) in Hrest. rewrite count_writes_app in Hrest.
    cbn in Hrest. lia.
  - apply (f_equal count_reads) in Hrest. rewrite count_reads_app in Hrest.
    cbn in Hrest. lia.
Qed.

(** X13. Whatever the network answers, the only texts written to the
    plaintext transport are [EHLO host] and [STARTTLS], each followed by CRLF:
    the credentials, the addresses and the message are never written before
    the upgrade. *)
Theorem plaintext_carries_no_credentials
    (emailConfig : EmailConfig) (env : SMTPConfig) (w : World) (bytes : string) :
  In (Write Plain bytes) (snd (call emailConfig env w)) ->
  bytes = ("EHLO " ++ host env) ++ CRLF \/ bytes = "STARTTLS" ++ CRLF.
Proof.
  intros Hin.
  destruct (run_parts emailConfig env w)
    as (c & tr & rest & Hcall & Hrest & _).
  rewrite Hcall in Hin. cbn [snd] in Hin.
  assert (Hfull : In (Write Plain bytes) (full_run emailConfig env w))
    by (rewrite Hrest; apply in_or_app; left; exact Hin).
  unfold full_run in Hfull. cbn [In] in Hfull.
  repeat (destruct Hfull as [Hfull | Hfull]; [ try discriminate Hfull | ]);
    try contradiction.
  - injection Hfull as <-. left. reflexivity.
  - injection Hfull as <-. right. reflexivity.
Qed.

Lemma plaintext_carries_no_credentials_witness :
  "STARTTLS" ++ CRLF = ("EHLO " ++ host office) ++ CRLF
  \/ "STARTTLS" ++ CRLF = "STARTTLS" ++ CRLF.
Proof.
  apply (@plaintext_carries_no_credentials hello office (relay friendly 0)
           ("STARTTLS" ++ CRLF)).
  vm_compute. do 6 right. left. reflexivity.
Defined.

(** X14. The checks on the arguments are made in a fixed order, each with
    its own error: a missing password is reported first, as
    [SMTP_PASSWORD environment variable is not set]; with a password, a
    missing user name is reported as
    [SMTP_USERNAME environment variable is not set]; with both, a missing
    recipient, subject or body is reported as
    [Missing required email parameters: to, subject, and body are required]. *)
Theorem configuration_errors
    (emailConfig : EmailConfig) (env : SMTPConfig) (w : World) :
  (truthy (SMTP_PASSWORD env) = false ->
   fst (call emailConfig env w)
   = Normal (failure "SMTP_PASSWORD environment variable is not set"))
  /\ (truthy (SMTP_PASSWORD env) = true ->
      truthy (SMTP_USERNAME env) = false ->
      fst (call emailConfig env w)
      = Normal (failure "SMTP_USERNAME environment variable is not set"))
  /\ (truthy (SMTP_PASSWORD env) = true ->
      truthy (SMTP_USERNAME env) = true ->
      truthy (to emailConfig) && truthy (subject emailConfig)
        && truthy (body emailConfig) = false ->
      fst (call emailConfig env w)
      = Normal (failure
          "Missing required email parameters: to, subject, and body are required")).
Proof.
  destruct (call_run emailConfig env w) as (c & st & Hrun & ->). cbn [fst].
  rewrite <- (truthy_username env).
  split; [ | split ].
  - intros Hpassword. unfold_run Hrun. repeat settle Hrun.
    injection Hrun as <- _. reflexivity.
  - intros Hpassword Husername. unfold_run Hrun. repeat settle Hrun.
    injection Hrun as <- _. reflexivity.
  - intros Hpassword Husername Hfields.
    destruct (truthy (to emailConfig)) eqn:Hto;
      destruct (truthy (subject emailConfig)) eqn:Hsubject;
      destruct (truthy (body emailConfig)) eqn:Hbody;
      try discriminate Hfields.
    all: unfold_run Hrun; repeat settle Hrun.
    all: injection Hrun as <- _; reflexivity.
Qed.

Lemma configuration_errors_witness :
  fst (call hello no_password silent)
  = Normal (failure "SMTP_PASSWORD environment variable is not set").
Proof.
  destruct (configuration_errors hello no_password silent) as (Hpassword & _).
  apply Hpassword. reflexivity.
Defined.

Section Ignored.

Variable w : World.
Variables a b x y z : Settled.

Lemma same_bind {A B} (m : Async A) (k : A -> Async B) :
  same w a b x y z m -> (forall v, same w a b x y z (k v)) ->
  same w a b x y z (bind m k).
Proof.
  intros Hm Hk st. unfold bind. rewrite Hm.
  destruct (m w st) as [[v|e] st']; [ apply Hk | reflexivity ].
Qed.

Lemma same_when (cond : bool) (m : Async unit) :
  same w a b x y z m -> same w a b x y z (when cond m).
Proof. intros Hm st. destruct cond; [ apply Hm | reflexivity ]. Qed.

Lemma same_readResponse : same w a b x y z readResponse.
Proof.
  intros st. unfold readResponse, bind, read. cbn.
  destruct (replies w (reads st)); reflexivity.
Qed.

Lemma same_readSecureResponse : same w a b x y z readSecureResponse.
Proof.
  intros st. unfold readSecureResponse, bind, read. cbn.
  destruct (replies w (reads st)); reflexivity.
Qed.

(** An operation in a [try] whose [catch] does nothing. *)
Lemma same_ignored (ev : Event) (answer answer' : World -> Settled) :
  forall w' st,
    try_catch (emit ev ;; await answer) (fun _ => ret tt) w' st
    = try_catch (emit ev ;; await answer') (fun _ => ret tt) w st.
Proof.
  intros w' st. unfold try_catch, bind, emit, await, ret.
  destruct (answer w'), (answer' w); reflexivity.
Qed.

Lemma session_same (emailConfig : EmailConfig) (env : SMTPConfig) :
  same w a b x y z (session emailConfig env).
Proof.
  unfold session. cbv zeta.
  repeat (apply same_bind;
          [ first [ apply same_when; intros st; reflexivity
                  | apply same_readResponse
                  | apply same_readSecureResponse
                  | intros st; apply same_ignored
                  | intros st; reflexivity ]
          | intros ? ]).
  intros st. reflexivity.
Qed.

End Ignored.

(** X15. The outcomes of the two [releaseLock()] before the upgrade and
    of the three closing operations after QUIT are ignored in every call,
    not only in a successful one: with other outcomes for these five
    operations the call resolves to the same result after the same
    operations. *)
Theorem ignored_answers_change_nothing
    (emailConfig : EmailConfig) (env : SMTPConfig) (w : World)
    (a b x y z : Settled) :
  call emailConfig env (with_teardown (with_releases w a b) x y z)
  = call emailConfig env w.
Proof.
  unfold call, sendEmail, try_catch.
  rewrite (session_same w a b x y z emailConfig env start).
  destruct (session emailConfig env w start) as [[r|e] st]; reflexivity.
Qed.

(** X16. When the user name or the password holds a code point above
    U+00FF, which [btoa] rejects, no call succeeds, whatever the relay
    answers: the call resolves to [success = false], and its operations stop
    before the write of the password, and before the write of the user name
    when it is the user name that [btoa] rejects; the rejected credential is
    never written. *)
Theorem unencodable_credentials_never_succeed
    (emailConfig : EmailConfig) (env : SMTPConfig) (w : World) :
  encodable env = false ->
  (exists text,
     fst (call emailConfig env w) = Normal (mkResult false None (Some text)))
  /\ (accepted_by_btoa (username env) = false ->
      length (snd (call emailConfig env w)) <= at_username)
  /\ length (snd (call emailConfig env w)) <= at_password.
Proof.
  intros Henc.
  assert (Huser : accepted_by_btoa (username env) = false ->
                  length (snd (call emailConfig env w)) <= at_username).
  { unfold accepted_by_btoa. intros Hrejected.
    destruct (btoa (username env)) eqn:Hbtoa; [ discriminate Hrejected | ].
    exact (unencodable_username emailConfig env w Hbtoa). }
  assert (Hshort : length (snd (call emailConfig env w)) <= at_password).
  { unfold encodable in Henc.
    destruct (accepted_by_btoa (username env)) eqn:Hname.
    - unfold accepted_by_btoa in Henc.
      destruct (btoa (tpl (SMTP_PASSWORD env))) eqn:Hpass; [ discriminate Henc | ].
      exact (unencodable_password emailConfig env w Hpass).
    - specialize (Huser eq_refl). unfold at_username, at_password in *. lia. }
  split; [ | split; [ exact Huser | exact Hshort ] ].
  destruct (run_parts emailConfig env w)
    as (c & tr & rest & Hcall & _ & _ & _ & [[-> ->] | (text & -> & _)]);
    rewrite Hcall in *; cbn [fst snd] in *.
  - cbn in Hshort. unfold at_password in Hshort. lia.
  - exists text. reflexivity.
Qed.

Lemma unencodable_credentials_never_succeed_witness :
  (exists text,
     fst (call hello euro (relay friendly 0))
     = Normal (mkResult false None (Some text)))
  /\ (accepted_by_btoa (username euro) = false ->
      length (snd (call hello euro (relay friendly 0))) <= at_username)
  /\ length (snd (call hello euro (relay friendly 0))) <= at_password.
Proof.
  apply (@unencodable_credentials_never_succeed hello euro (relay friendly 0)).
  reflexivity.
Defined.

(* ================================================================== *)
(** * Properties of the worker and of the callers *)
(* ================================================================== *)

(** [sendEmail] resolves. *)
Lemma call_resolves (emailConfig : EmailConfig) (env : SMTPConfig) (w : World) :
  exists r, fst (call emailConfig env w) = Normal r.
Proof.
  destruct (run_parts emailConfig env w)
    as (c & tr & rest & Hcall & _ & _ & _ & [[-> _] | (text & -> & _)]);
    rewrite Hcall; eexists; reflexivity.
Qed.

(** A request is answered without [sendEmail], or by [sendEmail]. *)
Lemma serve_cases (request : Http.Request) (env : SMTPConfig) (w : World) :
  (snd (serve request env w) = []
   /\ (authenticated request env = false
       \/ match Http.json request with
          | Http.Value emailConfig =>
              truthy (to emailConfig) && truthy (subject emailConfig)
                && truthy (body emailConfig) = false
          | _ => True
          end)
   /\ exists response,
        fst (serve request env w) = Normal response
        /\ In (Http.status response) [ 400; 401; 403; 405; 500 ]
        /\ In ("Content-Type", "application/json") (Http.headers response))
  \/ (authenticated request env = true
      /\ exists emailConfig r,
           Http.json request = Http.Value emailConfig
           /\ truthy (to emailConfig) && truthy (subject emailConfig)
                && truthy (body emailConfig) = true
           /\ fst (call emailConfig env w) = Normal r
           /\ serve request env w = (Normal (answer r), snd (call emailConfig env w))).
Proof.
  unfold serve, fetch, authenticated.
  destruct (String.eqb (Http.method request) "POST");
    [ | left; cbn; split; [ reflexivity | split; [ left; reflexivity | ] ];
        eexists; split; [ reflexivity | cbn; auto 10 ] ].
  unfold try_catch.
  destruct (truthy (AUTH_CODE env));
    [ | left; cbn; split; [ reflexivity | split; [ left; reflexivity | ] ];
        eexists; split; [ reflexivity | cbn; auto 10 ] ].
  destruct (truthy (Http.authorization request));
    [ | left; cbn; split; [ reflexivity | split; [ left; reflexivity | ] ];
        eexists; split; [ reflexivity | cbn; auto 10 ] ].
  destruct (truthy (Some (strip_bearer (tpl (Http.authorization request)))));
    [ | left; cbn; split; [ reflexivity | split; [ left; reflexivity | ] ];
        eexists; split; [ reflexivity | cbn; auto 10 ] ].
  destruct (String.eqb (strip_bearer (tpl (Http.authorization request)))
              (tpl (AUTH_CODE env)));
    [ | left; cbn; split; [ reflexivity | split; [ left; reflexivity | ] ];
        eexists; split; [ reflexivity | cbn; auto 10 ] ].
  cbn [negb orb andb].
  destruct (Http.json request) as [ | thrown | emailConfig ].
  - left. cbn. split; [ reflexivity | split; [ right; exact I | ] ].
    eexists; split; [ reflexivity | cbn; auto 10 ].
  - left. cbn. split; [ reflexivity | split; [ right; exact I | ] ].
    eexists; split; [ reflexivity | cbn; auto 10 ].
  - destruct (truthy (to emailConfig)) eqn:Hto; [ | left; cbn; split; [ reflexivity | split; [ right; reflexivity | ] ];
        eexists; split; [ reflexivity | cbn; auto 10 ] ].
    destruct (truthy (subject emailConfig)) eqn:Hsubject; [ | left; cbn; split; [ reflexivity | split; [ right; reflexivity | ] ];
        eexists; split; [ reflexivity | cbn; auto 10 ] ].
    destruct (truthy (body emailConfig)) eqn:Hbody; [ | left; cbn; split; [ reflexivity | split; [ right; reflexivity | ] ];
        eexists; split; [ reflexivity | cbn; auto 10 ] ].
    right. split; [ reflexivity | ].
    destruct (call_resolves emailConfig env w) as [r Hr].
    exists emailConfig, r.
    split; [ reflexivity | split; [ rewrite Hto, Hsubject, Hbody; reflexivity | split; [ exact Hr | ] ] ].
    cbn [negb orb]. unfold bind, call in *.
    destruct (sendEmail emailConfig env w start) as [c st].
    cbn in Hr. subst c. reflexivity.
Qed.

(** X17. The handler resolves to a response for every request and every
    behaviour of the network, it never rejects; the status of the response is
    one of 200, 400, 401, 403, 405 and 500, and its headers hold
    [Content-Type: application/json]. *)
Theorem every_request_is_answered
    (request : Http.Request) (env : SMTPConfig) (w : World) :
  exists response,
    fst (serve request env w) = Normal response
    /\ In (Http.status response) [ 200; 400; 401; 403; 405; 500 ]
    /\ In ("Content-Type", "application/json") (Http.headers response).
Proof.
  destruct (serve_cases request env w)
    as [(_ & _ & response & Hresponse & Hstatus & Htype)
       | (_ & emailConfig & r & _ & _ & _ & Hserve)].
  - exists response. split; [ exact Hresponse | split; [ | exact Htype ] ].
    cbn in *. intuition.
  - rewrite Hserve. exists (answer r). split; [ reflexivity | ].
    unfold answer. cbn. destruct (success r); auto 10.
Qed.

(** X18. When the handling of a request did anything to the network, the
    request was a POST carrying the authentication code of the environment,
    its body was a value whose fields pass the checks of [sendEmail] together
    with the credentials of the environment, and the operations are those of
    one call of [sendEmail] on that body. *)
Theorem network_needs_authentication
    (request : Http.Request) (env : SMTPConfig) (w : World) :
  snd (serve request env w) <> [] ->
  authenticated request env = true
  /\ exists emailConfig,
       Http.json request = Http.Value emailConfig
       /\ configured emailConfig env = true
       /\ snd (serve request env w) = snd (call emailConfig env w).
Proof.
  intros Hnetwork.
  destruct (serve_cases request env w)
    as [(Hnone & _) | (Hauth & emailConfig & r & Hjson & _ & _ & Hserve)];
    [ contradiction | ].
  split; [ exact Hauth | ].
  exists emailConfig. rewrite Hserve in *. cbn [snd] in *.
  split; [ exact Hjson | split; [ | reflexivity ] ].
  apply (started_configured emailConfig env w Hnetwork).
Qed.

Lemma network_needs_authentication_witness :
  authenticated (post (Some "Bearer s3cr3t") (Http.Value hello)) guarded = true
  /\ exists emailConfig,
       Http.json (post (Some "Bearer s3cr3t") (Http.Value hello))
       = Http.Value emailConfig
       /\ configured emailConfig guarded = true
       /\ snd (serve (post (Some "Bearer s3cr3t") (Http.Value hello)) guarded
                 (relay friendly 0))
          = snd (call emailConfig guarded (relay friendly 0)).
Proof.
  apply (@network_needs_authentication
           (post (Some "Bearer s3cr3t") (Http.Value hello)) guarded
           (relay friendly 0)).
  vm_compute. discriminate.
Defined.

(** X19. A response with status 200 is given only to an authenticated
    request whose session ran the whole fixed order with every gated reply
    accepted; its body is the JSON text of the success result naming the
    recipient. *)
Theorem ok_means_sent
    (request : Http.Request) (env : SMTPConfig) (w : World)
    (response : Http.Response) :
  fst (serve request env w) = Normal response ->
  Http.status response = 200 ->
  authenticated request env = true
  /\ exists emailConfig,
       Http.json request = Http.Value emailConfig
       /\ snd (serve request env w) = full_run emailConfig env w
       /\ gates_pass w = true
       /\ response = answer (sent (tpl (to emailConfig))).
Proof.
  intros Hresponse Hok.
  destruct (serve_cases request env w)
    as [(_ & _ & response' & Hresponse' & Hstatus & _)
       | (Hauth & emailConfig & r & Hjson & _ & Hr & Hserve)].
  - rewrite Hresponse in Hresponse'. injection Hresponse' as <-.
    rewrite Hok in Hstatus. cbn in Hstatus.
    repeat (destruct Hstatus as [Hstatus | Hstatus]; [ discriminate Hstatus | ]).
    contradiction.
  - rewrite Hserve in *. cbn [fst snd] in *. injection Hresponse as <-.
    split; [ exact Hauth | ].
    exists emailConfig. split; [ exact Hjson | ].
    assert (Hsuccess : success r = true)
      by (unfold answer in Hok; cbn in Hok; destruct (success r);
          [ reflexivity | discriminate Hok ]).
    destruct (successful_call emailConfig env w Hr Hsuccess) as (Hrun & Hgates & ->).
    repeat split; assumption.
Qed.

Lemma ok_means_sent_witness :
  authenticated (post (Some "Bearer s3cr3t") (Http.Value hello)) guarded = true
  /\ exists emailConfig,
       Http.json (post (Some "Bearer s3cr3t") (Http.Value hello))
       = Http.Value emailConfig
       /\ snd (serve (post (Some "Bearer s3cr3t") (Http.Value hello)) guarded
                 (relay friendly 0))
          = full_run emailConfig guarded (relay friendly 0)
       /\ gates_pass (relay friendly 0) = true
       /\ answer (sent "a@b.com") = answer (sent (tpl (to emailConfig))).
Proof.
  apply (@ok_means_sent
           (post (Some "Bearer s3cr3t") (Http.Value hello)) guarded
           (relay friendly 0) (answer (sent "a@b.com")));
    reflexivity.
Defined.

(** X20. A request that does not pass the checks on the method and on the
    authentication code is answered without a look at its body: the response
    is the same whatever the body, and nothing is asked of the network. *)
Theorem refusal_ignores_body
    (request : Http.Request) (env : SMTPConfig) (w : World)
    (one other : Http.Parsed) :
  authenticated request env = false ->
  serve (with_json request one) env w = serve (with_json request other) env w
  /\ snd (serve (with_json request one) env w) = [].
Proof.
  unfold authenticated, serve, fetch, with_json. cbn [Http.method Http.authorization].
  intros Hauth.
  destruct (String.eqb (Http.method request) "POST");
    [ | split; reflexivity ].
  destruct (truthy (AUTH_CODE env)); [ | split; reflexivity ].
  destruct (truthy (Http.authorization request)); [ | split; reflexivity ].
  destruct (truthy (Some (strip_bearer (tpl (Http.authorization request)))));
    [ | split; reflexivity ].
  destruct (String.eqb (strip_bearer (tpl (Http.authorization request)))
              (tpl (AUTH_CODE env)));
    [ discriminate Hauth | split; reflexivity ].
Qed.

Lemma refusal_ignores_body_witness :
  serve (with_json (post (Some "Bearer wrong") Http.NotJson) (Http.Value hello))
    guarded (relay friendly 0)
  = serve (with_json (post (Some "Bearer wrong") Http.NotJson) Http.NotJson)
      guarded (relay friendly 0)
  /\ snd (serve (with_json (post (Some "Bearer wrong") Http.NotJson)
                   (Http.Value hello))
            guarded (relay friendly 0))
     = [].
Proof.
  apply (@refusal_ignores_body (post (Some "Bearer wrong") Http.NotJson) guarded
           (relay friendly 0) (Http.Value hello) Http.NotJson).
  reflexivity.
Defined.

Lemma after_word_app (word : string) :
  forall a s, after_word word a = Some "" -> after_word word (a ++ s) = Some s.
Proof.
  induction word as [|p word IH]; intros a s H.
  - cbn in H. injection H as ->. reflexivity.
  - destruct a as [|c a]; [ discriminate H | ]. cbn in *.
    destruct (Ascii.eqb (lower c) (lower p)); [ apply IH; exact H | discriminate H ].
Qed.

Lemma blank_spec (s : string) : blank s = true <-> trimStart s = "".
Proof. unfold blank. destruct (trimStart s); split; congruence. Qed.

(** White space before a text is skipped whole. *)
Lemma trimStart_blank_app (s : string) :
  forall n gap, String.length gap <= n -> blank gap = true ->
  trimStart (gap ++ s) = trimStart s.
Proof.
  induction n as [|n IH]; intros gap Hn Hblank.
  - destruct gap; [ reflexivity | cbn in Hn; lia ].
  - destruct gap as [|c g]; [ reflexivity | ].
    apply blank_spec in Hblank. cbn [append]. cbn [trimStart] in *.
    destruct (ws1 c).
    { apply IH; [ cbn in Hn; lia | apply blank_spec; exact Hblank ]. }
    destruct g as [|d g]; [ discriminate Hblank | ]. cbn [append].
    destruct (ws2 c d).
    { apply IH; [ cbn in Hn; lia | apply blank_spec; exact Hblank ]. }
    destruct g as [|e g]; [ discriminate Hblank | ]. cbn [append].
    destruct (ws3 c d e); [ | discriminate Hblank ].
    apply IH; [ cbn in Hn; lia | apply blank_spec; exact Hblank ].
Qed.

Lemma append_not_shorter (gap code : string) :
  gap <> "" -> code <> gap ++ code.
Proof.
  intros Hgap H. apply (f_equal String.length) in H.
  rewrite length_append in H. destruct gap; [ contradiction | cbn in H; lia ].
Qed.

(** The header forms that carry a code. *)
Lemma strip_bearer_forms (code : string) :
  trimStart code = code ->
  (after_word "Bearer" code = None -> strip_bearer code = code)
  /\ (forall word gap,
        after_word "Bearer" word = Some "" ->
        gap <> "" -> blank gap = true ->
        strip_bearer (word ++ gap ++ code) = code).
Proof.
  intros Hcode. split.
  - intros Hbare. unfold strip_bearer. rewrite Hbare. reflexivity.
  - intros word gap Hword Hgap Hblank. unfold strip_bearer.
    rewrite (@after_word_app "Bearer" word (gap ++ code) Hword). cbv zeta.
    rewrite (@trimStart_blank_app code (String.length gap) gap (le_n _) Hblank), Hcode.
    destruct (String.eqb_spec code (gap ++ code)) as [Heq | _]; [ | reflexivity ].
    exfalso. exact (@append_not_shorter gap code Hgap Heq).
Qed.

(** X21. For a POST request and an authentication code that is not empty
    and does not begin with white space, the [Authorization] header is
    accepted in two forms: the word [Bearer] in any mix of upper and lower
    case, at least one white-space character, then the code; and the code
    alone, when the code does not itself begin with [Bearer]. *)
Theorem bearer_prefix_is_optional
    (request : Http.Request) (env : SMTPConfig) (code word gap : string) :
  Http.method request = "POST" ->
  AUTH_CODE env = Some code ->
  code <> "" ->
  trimStart code = code ->
  after_word "Bearer" word = Some "" ->
  gap <> "" -> blank gap = true ->
  (Http.authorization request = Some (word ++ gap ++ code) ->
   authenticated request env = true)
  /\ (after_word "Bearer" code = None ->
      Http.authorization request = Some code ->
      authenticated request env = true).
Proof.
  intros Hmethod Henv Hcode Htrim Hword Hgap Hblank.
  destruct (@strip_bearer_forms code Htrim) as [Hbare Hprefixed].
  assert (Htruthy : truthy (Some code) = true)
    by (destruct code; [ contradiction | reflexivity ]).
  unfold authenticated. rewrite Hmethod, Henv. cbn [tpl String.eqb].
  split.
  - intros ->. cbn [tpl]. rewrite (Hprefixed word gap Hword Hgap Hblank).
    rewrite Htruthy, String.eqb_refl.
    destruct word as [|c word]; [ discriminate Hword | reflexivity ].
  - intros Hnone ->. cbn [tpl]. rewrite (Hbare Hnone).
    rewrite Htruthy, String.eqb_refl. reflexivity.
Qed.

Lemma bearer_prefix_is_optional_witness :
  authenticated (post (Some "bearer  s3cr3t") Http.NotJson) guarded = true.
Proof.
  refine (proj1 (@bearer_prefix_is_optional
                   (post (Some "bearer  s3cr3t") Http.NotJson) guarded
                   "s3cr3t" "bearer" "  " _ _ _ _ _ _ _) _);
    first [ reflexivity | discriminate ].
Defined.

(** X22. For an authenticated request nothing is asked of the network
    when the body is unusable: a body that is not JSON is answered with 400
    and the invalid-JSON error; the body [null] with 500 and the message of
    the TypeError that reading its field throws, or [Unknown error occurred];
    a value without a recipient, a subject or a body with 400 and the
    missing-fields error. *)
Theorem body_is_checked_before_sending
    (request : Http.Request) (env : SMTPConfig) (w : World) :
  authenticated request env = true ->
  match Http.json request with
  | Http.NotJson =>
      serve request env w
      = (Normal (Http.mkResponse
                   (refusal
                      "Invalid JSON in request body. Expected EmailConfig object with to, subject, and body fields.")
                   400 json_type), [])
  | Http.Null thrown =>
      serve request env w
      = (Normal (answer (mkResult false None (Some (thrown_text thrown)))), [])
  | Http.Value emailConfig =>
      truthy (to emailConfig) && truthy (subject emailConfig)
        && truthy (body emailConfig) = false ->
      serve request env w
      = (Normal (Http.mkResponse
                   (refusal
                      "Missing required fields: to, subject, and body are required in the request body.")
                   400 json_type), [])
  end.
Proof.
  unfold authenticated, serve, fetch. intros Hauth. split_andb.
  repeat match goal with
         | E : _ = true |- _ => rewrite E; clear E
         end.
  cbn [negb orb]. unfold try_catch.
  destruct (Http.json request) as [ | thrown | emailConfig ]; try reflexivity.
  intros Hfields.
  destruct (truthy (to emailConfig)); [ | reflexivity ].
  destruct (truthy (subject emailConfig)); [ | reflexivity ].
  destruct (truthy (body emailConfig)); [ discriminate Hfields | reflexivity ].
Qed.

Lemma body_is_checked_before_sending_witness :
  serve (post (Some "s3cr3t") Http.NotJson) guarded silent
  = (Normal (Http.mkResponse
               (refusal
                  "Invalid JSON in request body. Expected EmailConfig object with to, subject, and body fields.")
               400 json_type), []).
Proof.
  apply (@body_is_checked_before_sending
           (post (Some "s3cr3t") Http.NotJson) guarded silent).
  reflexivity.
Defined.

(** A call that passes the checks on its arguments opens the probe. *)
Lemma configured_starts (emailConfig : EmailConfig) (env : SMTPConfig) (w : World) :
  configured emailConfig env = true ->
  exists rest,
    snd (call emailConfig env w) = Connect (host env) (port env) false :: rest.
Proof.
  intros Hcfg. unpack_configured Hcfg.
  destruct (call_run emailConfig env w) as (c & st & Hrun & ->).
  unfold_run Hrun. repeat settle Hrun.
  all: injection Hrun as <- <-; eexists; reflexivity.
Qed.

(** X23. A call whose arguments pass the checks always asks something of
    the network, and its first operation is the opening of the probe
    connection to the configured host and port, without STARTTLS. *)
Theorem configured_call_probes_first
    (emailConfig : EmailConfig) (env : SMTPConfig) (w : World) :
  configured emailConfig env = true ->
  exists rest,
    snd (call emailConfig env w) = Connect (host env) (port env) false :: rest.
Proof.
  exact (@configured_starts emailConfig env w).
Qed.

Lemma configured_call_probes_first_witness :
  exists rest,
    snd (call hello office silent)
    = Connect (host office) (port office) false :: rest.
Proof.
  apply (@configured_call_probes_first hello office silent).
  reflexivity.
Defined.

(** X24. An authenticated request whose body holds a recipient, a
    subject and a body is handed to [sendEmail] once: the operations on the
    network are those of that call, and the response is the result of the
    call as indented JSON, with status 200 when it succeeded and 500 when it
    failed. *)
Theorem complete_request_is_forwarded
    (request : Http.Request) (env : SMTPConfig) (w : World)
    (emailConfig : EmailConfig) :
  authenticated request env = true ->
  Http.json request = Http.Value emailConfig ->
  truthy (to emailConfig) && truthy (subject emailConfig)
    && truthy (body emailConfig) = true ->
  exists r,
    fst (call emailConfig env w) = Normal r
    /\ serve request env w = (Normal (answer r), snd (call emailConfig env w)).
Proof.
  intros Hauth Hjson Hfields.
  destruct (serve_cases request env w)
    as [(_ & [Hno | Hbody] & _)
       | (_ & emailConfig' & r & Hjson' & _ & Hr & Hserve)].
  - congruence.
  - rewrite Hjson in Hbody. congruence.
  - assert (emailConfig' = emailConfig) as -> by congruence.
    exists r. split; assumption.
Qed.

Lemma complete_request_is_forwarded_witness :
  exists r,
    fst (call hello guarded (relay friendly 0)) = Normal r
    /\ serve (post (Some "Bearer s3cr3t") (Http.Value hello)) guarded
         (relay friendly 0)
       = (Normal (answer r), snd (call hello guarded (relay friendly 0))).
Proof.
  apply (@complete_request_is_forwarded
           (post (Some "Bearer s3cr3t") (Http.Value hello)) guarded
           (relay friendly 0) hello);
    reflexivity.
Defined.

Lemma welcome_run_call (userEmail userName : string) (env : SMTPConfig)
    (w : World) :
  welcome_run userEmail userName env w = call (welcome userEmail userName) env w.
Proof. reflexivity. Qed.

(** X25. [sendWelcomeEmail] asks something of the network exactly when
    the address of the user is not empty and the environment holds a password
    and a user name; the envelope sender it writes is always
    [welcome@company.com], whatever the user name of the environment; and its
    payload names [Welcome Team] as the sender, is declared as HTML, and holds
    the name of the user inside the template exactly as it was given, with no
    escaping. *)
Theorem welcome_sender_is_fixed
    (userEmail userName : string) (env : SMTPConfig) (w : World) :
  let tr := snd (welcome_run userEmail userName env w) in
  (tr <> []
   <-> userEmail <> "" /\ truthy (SMTP_PASSWORD env) = true
       /\ truthy (SMTP_USERNAME env) = true)
  /\ (forall ev, nth_error tr at_mail_from = Some ev ->
        ev = Write Secure ("MAIL FROM:<welcome@company.com>" ++ CRLF))
  /\ (forall ev, nth_error tr at_payload = Some ev ->
        ev = Write Secure
               (join CRLF
                  [ "From: Welcome Team <welcome@company.com>";
                    "To: " ++ userEmail;
                    "Subject: Welcome to our platform!";
                    "Date: " ++ utc_string w;
                    message_id env w;
                    "MIME-Version: 1.0";
                    text_html;
                    eight_bit;
                    "";
                    welcome_before ++ userName ++ welcome_after;
                    "." ]
                ++ CRLF)).
Proof.
  intros tr. subst tr. rewrite welcome_run_call.
  split; [ split | split ].
  - intros Hstarted. apply started_configured in Hstarted.
    unfold configured in Hstarted. split_andb.
    repeat split; try assumption.
    intros ->. discriminate.
  - intros (Hto & Hpassword & Husername).
    destruct (@configured_starts (welcome userEmail userName) env w) as [rest ->].
    + unfold configured. rewrite Hpassword, Husername.
      destruct userEmail; [ contradiction | reflexivity ].
    + discriminate.
  - intros ev Hev. apply event_of_full_run in Hev.
    cbn in Hev. injection Hev as <-. reflexivity.
  - intros ev Hev. apply event_of_full_run in Hev.
    unfold at_payload, full_run in Hev. cbn [nth_error] in Hev.
    injection Hev as <-. reflexivity.
Qed.
